(** * Jukebox: the NONG manifest manager

    A shallow embedding of [src/managers/nong_manager.cpp] (namespace
    [jukebox], class [NongManager]) and the properties its specification
    states about it.

    Conventions of the embedding:
    - a C++ [int] is a [Z]; the only arithmetic on song IDs is
      [adjustSongID], which is shown to stay inside the 32-bit range;
    - [std::unordered_map<int, std::unique_ptr<Nongs>>] is a
      [gmap Z (option Nongs)]: a key may be bound to a null pointer, which
      is what [operator[]] creates for an absent key;
    - a function that may throw or dereference a null pointer returns an
      [outcome]; a [geode::Result<T>] is a [Result T];
    - the manifest directory is a [gmap string string] from file names to
      contents, and the order of [std::filesystem::directory_iterator] is a
      list of names given from outside;
    - collaborators whose code is not part of the translated sources (the
      methods of class [Nongs], the JSON library, the host game) are
      [Variable]s of the sections below. *)

From Stdlib Require Import ZArith String Ascii List Bool Lia.
From stdpp Require Import base option list gmap strings pretty.

Local Open Scope string_scope.
Local Open Scope Z_scope.

(** ** Outcomes of C++ code *)

(** The exceptions the translated code can raise. *)
Inductive exn : Type :=
| invalid_argument      (* std::stoi: no conversion could be performed *)
| out_of_range          (* std::stoi: value does not fit an int *)
| bad_optional_access   (* std::optional::value on an empty optional *)
| filesystem_error.     (* std::filesystem::rename on a missing file *)

(** What running a piece of code yields: a value, an exception that
    propagates to the caller, or a null pointer dereference. *)
Inductive outcome (A : Type) : Type :=
| Normal (a : A)
| Throws (e : exn)
| NullDeref.
Arguments Normal {A} a.
Arguments Throws {A} e.
Arguments NullDeref {A}.

#[global] Instance outcome_ret : MRet outcome := fun _ a => Normal a.

#[global] Instance outcome_bind : MBind outcome := fun _ _ k x =>
  match x with
  | Normal a => k a
  | Throws e => Throws e
  | NullDeref => NullDeref
  end.

(** [geode::Result<T>]: a value or an error message. *)
Inductive Result (A : Type) : Type :=
| Ok (a : A)
| Err (msg : string).
Arguments Ok {A} a.
Arguments Err {A} msg.

Definition isErr {A} (r : Result A) : bool :=
  match r with Ok _ => false | Err _ => true end.

(** ** The data model of [nong.hpp] *)

Module Nong.

(** Modelled from the spec: the record [SongMetadata] of [nong.hpp],
    which is not among the translated sources (section 3 of the
    specification; the field order of the aggregate initialiser used in
    [initSongID] is gdID, uniqueID, name, artist). *)
Record SongMetadata : Type := mkMetadata {
  gdID : Z;
  uniqueID : string;
  name : string;
  artist : string;
  startOffset : Z;
  indexSource : option string
}.

(** Modelled from the spec: the three entry variants of [nong.hpp]
    (Local: metadata and path; Youtube and Hosted: metadata and URL). *)
Record LocalSong : Type := mkLocal {
  l_metadata : SongMetadata;
  l_path : string
}.

Record YTSong : Type := mkYT {
  y_metadata : SongMetadata;
  y_url : string
}.

Record HostedSong : Type := mkHosted {
  h_metadata : SongMetadata;
  h_url : string
}.

(** What a [Song*] points to. *)
Inductive Song : Type :=
| SLocal (s : LocalSong)
| SYoutube (s : YTSong)
| SHosted (s : HostedSong).

Definition metadata (s : Song) : SongMetadata :=
  match s with
  | SLocal l => l_metadata l
  | SYoutube y => y_metadata y
  | SHosted h => h_metadata h
  end.

(** Modelled from the spec: [Song::path()] of [nong.hpp], which the
    manager reads as a [std::optional]. In the data model of the
    specification only a Local entry carries a filesystem path. *)
Definition path (s : Song) : option string :=
  match s with
  | SLocal l => Some (l_path l)
  | SYoutube _ => None
  | SHosted _ => None
  end.

(** Modelled from the spec: the aggregate [Nongs] of [nong.hpp], one per
    host song ID, with its default entry, its three candidate lists in
    insertion order and the uniqueID of the active entry. *)
Record Nongs : Type := mkNongs {
  songID : Z;
  defaultSong : LocalSong;
  locals : list LocalSong;
  youtubes : list YTSong;
  hosteds : list HostedSong;
  activeID : string
}.

(** Modelled from the spec: the constructor [Nongs{id, defaultSong}] the
    manager calls. There are no candidates yet and the initial value of
    [activeID] is the default's uniqueID. *)
Definition create (id : Z) (d : LocalSong) : Nongs :=
  mkNongs id d [] [] [] (uniqueID (l_metadata d)).

(** Modelled from the spec: [LocalSong::createUnknown], the placeholder
    default of an ID without known metadata (placeholder name and artist,
    empty path). Its uniqueID is drawn by the caller's generator. *)
Definition createUnknown (id : Z) (uid : string) : LocalSong :=
  mkLocal (mkMetadata id uid "Unknown" "" 0 None) "".

Definition entries (n : Nongs) : list Song :=
  SLocal (defaultSong n)
    :: (SLocal <$> locals n) ++ (SYoutube <$> youtubes n)
    ++ (SHosted <$> hosteds n).

(** Modelled from the spec: the accessor [Nongs::active()], the entry
    whose uniqueID is [activeID]; [None] stands for a null [Song*]. *)
Definition active (n : Nongs) : option Song :=
  List.find (fun s => bool_decide (uniqueID (metadata s) = activeID n))
            (entries n).

Definition set_default_name_artist (nm ar : string) (n : Nongs) : Nongs :=
  let d := defaultSong n in
  let m := l_metadata d in
  mkNongs (songID n)
          (mkLocal (mkMetadata (gdID m) (uniqueID m) nm ar (startOffset m)
                               (indexSource m))
                   (l_path d))
          (locals n) (youtubes n) (hosteds n) (activeID n).

End Nong.

Import Nong.

(** ** The manifest map *)

(** [m_manifest.m_nongs]. [Some None] is a key bound to a null
    [unique_ptr]. *)
Abbreviation manifest := (gmap Z (option Nongs)).

(** [m_nongs.contains(k)] *)
Definition contains (m : manifest) (k : Z) : bool :=
  bool_decide (is_Some (m !! k)).

(** [m_nongs.insert({k, std::move(p)})]: [std::unordered_map::insert] keeps
    the element that is already there. *)
Definition map_insert (k : Z) (n : Nongs) (m : manifest) : manifest :=
  if contains m k then m else <[k := Some n]> m.

(** [m_nongs[k]]: binds an absent key to a value-initialised (null)
    [unique_ptr] and returns the stored pointer. *)
Definition map_index (k : Z) (m : manifest) : manifest * option Nongs :=
  match m !! k with
  | Some p => (m, p)
  | None => (<[k := None]> m, None)
  end.

(** [NongManager::getNongs]: an empty optional for an absent key, otherwise
    the stored pointer (through [operator[]], which does not insert
    here). *)
Definition getNongs (m : manifest) (songID : Z) : option (option Nongs) :=
  if contains m songID then Some (snd (map_index songID m)) else None.

(** ** Song ID adjustment *)

Definition int_min : Z := - 2 ^ 31.
Definition int_max : Z := 2 ^ 31 - 1.
Definition is_int (z : Z) : Prop := int_min <= z <= int_max.

(** [NongManager::adjustSongID] *)
Definition adjustSongID (id : Z) (robtop : bool) : Z :=
  if robtop then (if id <? 0 then id else - id - 1) else id.

(** ** Collaborators outside the translated sources *)

(** [SongInfoObject], as far as the manager reads it. *)
Record SongInfoObject : Type := mkSongInfo {
  m_songName : string;
  m_artistName : string
}.

(** The host game and the random name generator. [random_string n] is the
    string the [n]-th call of [jukebox::random_string(16)] returns. *)
Class Host : Type := {
  getAudioFileName : Z -> string;        (* LevelTools::getAudioFileName *)
  getWritablePath2 : string;             (* CCFileUtils::getWritablePath2 *)
  getWritablePath : string;              (* CCFileUtils::getWritablePath *)
  pathForSong : Z -> string;             (* MusicDownloadManager::pathForSong *)
  getSongInfoObject : Z -> option SongInfoObject;
  random_string : nat -> string
}.

(** A [Nongs*] handed to another subsystem: null, or the aggregate stored
    under a key of the manifest. *)
Inductive NongsPtr : Type :=
| nullptr
| ptr_to (key : Z).

(** The calls the manager makes on the host, in order of occurrence. *)
Record HostLog : Type := mkHostLog {
  draws : nat;                      (* calls of random_string so far *)
  info_requests : list Z;           (* getSongInfo(id, true) *)
  index_registered : list NongsPtr  (* IndexManager::registerIndexNongs *)
}.

Definition draw `{Host} (h : HostLog) : string * HostLog :=
  (random_string (draws h),
   mkHostLog (S (draws h)) (info_requests h) (index_registered h)).

Definition request_info (id : Z) (h : HostLog) : HostLog :=
  mkHostLog (draws h) (info_requests h ++ [id]) (index_registered h).

Definition register_index (p : NongsPtr) (h : HostLog) : HostLog :=
  mkHostLog (draws h) (info_requests h) (index_registered h ++ [p]).

(** [std::filesystem::path::operator/] on the paths the manager builds: a
    rooted right operand replaces the left one, otherwise a separator is
    put between the two unless the left one is empty or ends with one. *)
Definition ends_with_slash (a : string) : bool :=
  match rev (list_ascii_of_string a) with
  | c :: _ => bool_decide (c = "/"%char)
  | [] => false
  end.

Definition path_join (a b : string) : string :=
  match b with
  | String "/" _ => b
  | _ => if bool_decide (a = "") || ends_with_slash a
         then String.append a b
         else String.append a (String "/" b)
  end.

(** ** [NongManager::initSongID] *)

Section InitSongID.
Context `{Host}.

(** The pointer that [m_manifest.m_nongs[id].get()] yields. *)
Definition ptr_of (id : Z) (p : option Nongs) : NongsPtr :=
  match p with
  | Some _ => ptr_to id
  | None => nullptr
  end.

(** Lines 45-99. [obj] is [None] for a null [SongInfoObject*]. The
    [log::error] call has no effect on the state and is left out. *)
Definition initSongID (obj : option SongInfoObject) (id : Z) (robtop : bool)
    (m : manifest) (h : HostLog) : manifest * HostLog :=
  if contains m id then (m, h)
  else if negb (bool_decide (is_Some obj)) && robtop then (m, h)
  else
    (* if (obj && robtop) *)
    let '(m1, h1, initialized) :=
      match obj with
      | Some o =>
          if robtop then
            let adjusted := adjustSongID id robtop in
            let filename := getAudioFileName id in
            let gdDir := getWritablePath2 in
            let '(uid, h') := draw h in
            (map_insert adjusted
               (create adjusted
                  (mkLocal
                     (mkMetadata adjusted uid (m_songName o)
                                 (m_artistName o) 0 None)
                     (path_join (path_join gdDir "Resources") filename)))
               m, h', true)
          else (m, h, false)
      | None => (m, h, false)
      end in
    (* if (!obj && !initialized) obj = getSongInfoObject(id) *)
    let obj1 :=
      match obj with
      | None => if negb initialized then getSongInfoObject id else obj
      | Some _ => obj
      end in
    match obj1 with
    | None =>
        (* here !obj, hence !initialized: fetch from the servers, insert
           a placeholder and return *)
        let h2 := request_info id h1 in
        let '(uid, h3) := draw h2 in
        (map_insert id (create id (createUnknown id uid)) m1, h3)
    | Some o =>
        let '(m2, h2) :=
          if negb initialized then
            let '(uid, h') := draw h1 in
            (map_insert id
               (create id
                  (mkLocal
                     (mkMetadata id uid (m_songName o) (m_artistName o)
                                 0 None)
                     (pathForSong id)))
               m1, h')
          else (m1, h1) in
        let '(m3, nongs) := map_index id m2 in
        (m3, register_index (ptr_of id nongs) h2)
    end.

End InitSongID.

(** ** Strings, file names and the manifest directory *)

(** [std::isspace] in the C locale. *)
Definition is_space (c : ascii) : bool :=
  let n := nat_of_ascii c in
  Nat.eqb n 32 || (Nat.leb 9 n && Nat.leb n 13).

Fixpoint skip_spaces (s : string) : string :=
  match s with
  | String c r => if is_space c then skip_spaces r else s
  | EmptyString => s
  end.

Definition digit_of (c : ascii) : option Z :=
  let n := Z.of_nat (nat_of_ascii c) in
  if (48 <=? n) && (n <=? 57) then Some (n - 48) else None.

(** The value of the longest prefix of decimal digits, [acc] being the
    value read so far ([None]: no digit yet). *)
Fixpoint read_digits (s : string) (acc : option Z) : option Z :=
  match s with
  | String c r =>
      match digit_of c with
      | Some d => read_digits r (Some (10 * default 0 acc + d))
      | None => acc
      end
  | EmptyString => acc
  end.

(** [std::stoi(s)] (base 10): leading white space, an optional sign, then
    the longest run of digits; what follows is ignored. It throws
    [std::invalid_argument] when there is no digit and [std::out_of_range]
    when the value does not fit an [int]. *)
Definition stoi (s : string) : outcome Z :=
  let s1 := skip_spaces s in
  let '(negative, s2) :=
    match s1 with
    | String "-" r => (true, r)
    | String "+" r => (false, r)
    | _ => (false, s1)
    end in
  match read_digits s2 None with
  | None => Throws invalid_argument
  | Some v =>
      let r := if negative : bool then - v else v in
      if (int_min <=? r) && (r <=? int_max) then Normal r
      else Throws out_of_range
  end.

(** The file name cut at its rightmost period: what precedes it, and the
    rest from the period on. *)
Fixpoint split_last_dot (f : string) : option (string * string) :=
  match f with
  | EmptyString => None
  | String c r =>
      match split_last_dot r with
      | Some (a, b) => Some (String c a, b)
      | None => if bool_decide (c = "."%char) then Some ("", f) else None
      end
  end.

Definition is_dot_or_dotdot (f : string) : bool :=
  bool_decide (f = ".") || bool_decide (f = "..").

(** [path::extension()] of a file name: from the rightmost period on;
    empty for ".", for ".." and when the only period is the first
    character. *)
Definition extension (f : string) : string :=
  if is_dot_or_dotdot f then ""
  else match split_last_dot f with
       | Some ("", _) => ""
       | Some (_, e) => e
       | None => ""
       end.

(** [path::stem()]: the file name without its extension. *)
Definition stem (f : string) : string :=
  if is_dot_or_dotdot f then f
  else match split_last_dot f with
       | Some ("", _) => f
       | Some (a, _) => a
       | None => f
       end.

(** The segments of [s] between the occurrences of [sep]. *)
Fixpoint split_on (sep : ascii) (s : string) : list string :=
  match s with
  | EmptyString => [""]
  | String c r =>
      if bool_decide (c = sep) then "" :: split_on sep r
      else match split_on sep r with
           | seg :: segs => String c seg :: segs
           | [] => [String c ""]
           end
  end.

Definition starts_with (prefix s : string) : bool := String.prefix prefix s.

(** [path::filename()]: what follows the last separator. *)
Definition filename (p : string) : string :=
  default "" (last (split_on "/"%char p)).

(** How [std::filesystem::path] reads a path in the generic format (root
    names, which POSIX paths do not have, are left out): whether it starts
    at the root directory, and its file names, a run of separators
    counting as one separator and a trailing separator as an empty last
    name. *)
Definition path_parts (p : string) : bool * list string :=
  let segs := split_on "/"%char p in
  let names := List.filter (fun x => negb (bool_decide (x = ""))) segs in
  (starts_with "/" p,
   if negb (bool_decide (names = [])) && bool_decide (last segs = Some "")
   then (names ++ [""])%list else names).

(** [operator==] on two paths: they are compared part by part, not as
    texts, so that [/old//d.mp3] equals [/old/d.mp3]. *)
Definition path_equal (p q : string) : bool :=
  bool_decide (path_parts p = path_parts q).

(** The files of a directory: name to contents. *)
Abbreviation directory := (gmap string string).

(** [std::filesystem::rename(dir / a, dir / b)]: replaces [b] when it
    exists and throws when [a] does not. *)
Definition rename (a b : string) (fs : directory) : outcome directory :=
  match fs !! a with
  | Some c => Normal (<[b := c]> (delete a fs))
  | None => Throws filesystem_error
  end.

(** The JSON library and the deserialiser of [nong_serialize.hpp]. *)
Class Json : Type := {
  json : Type;
  json_parse : string -> Result json;          (* matjson::parse *)
  from_json : json -> Z -> Result Nongs        (* Serialize<Nongs>::from_json *)
}.

(** ** [NongManager::loadNongsFromPath] *)

Section Load.
Context `{Json}.

(** Lines 327-368, for the file [fname] of the manifest directory [fs].
    [std::stoi] is called outside any handler, so its exceptions leave
    the function. *)
Definition loadNongsFromPath (fs : directory) (fname : string)
    : outcome (Result Nongs) :=
  id ← stoi (stem fname);
  if id =? 0 then
    Normal (Err (String.append "Invalid filename " fname))
  else
    match fs !! fname with
    | None => Normal (Err (String.append "Couldn't open file: " fname))
    | Some contents =>
        match json_parse contents with
        | Err err =>
            Normal (Err (String.append (pretty id)
              (String.append ": Couldn't parse JSON from file: " err)))
        | Ok j =>
            match from_json j id with
            | Err e =>
                Normal (Err (String.append (pretty id)
                  (String.append ": Failed to parse JSON: " e)))
            | Ok nongs => Normal (Ok nongs)
            end
        end
    end.

(** The loop of [init], lines 204-224, over the names the directory
    iterator yields. *)
Fixpoint scanManifestDir (listing : list string) (fs : directory)
    (m : manifest) : outcome (directory * manifest) :=
  match listing with
  | [] => Normal (fs, m)
  | entry :: rest =>
      if negb (bool_decide (extension entry = ".json")) then
        scanManifestDir rest fs m
      else
        res ← loadNongsFromPath fs entry;
        match res with
        | Err _ =>
            fs' ← rename entry (String.append entry ".bak") fs;
            scanManifestDir rest fs' m
        | Ok ptr => scanManifestDir rest fs (map_insert (songID ptr) ptr m)
        end
  end.

End Load.

(** ** The methods of class [Nongs] the manager calls *)

(** Each mutator returns its [Result<>] and the aggregate as it leaves it;
    [Nongs_commit] writes to the manifest directory. Their code is in
    [nong.cpp], outside the translated sources. *)
Class NongsOps : Type := {
  Nongs_add : LocalSong -> Nongs -> Result () * Nongs;
  Nongs_merge : Nongs -> Nongs -> Result () * Nongs;
  Nongs_setActive : string -> Nongs -> Result () * Nongs;
  Nongs_deleteSong : string -> Nongs -> Result () * Nongs;
  Nongs_deleteSongAudio : string -> Nongs -> Result () * Nongs;
  Nongs_deleteAllSongs : Nongs -> Result () * Nongs;
  Nongs_commit : Nongs -> directory -> Result () * directory
}.

(** The legacy manifest of [compat/compat.hpp]: for one song ID, the
    default entry, the flat list of songs and the active one. *)
Record CompatManifest : Type := mkCompat {
  c_defaultSong : LocalSong;
  c_songs : list LocalSong;
  c_active : LocalSong
}.

(** What [compat::v2] reports: [None] when [manifestExists()] is false,
    otherwise the result of [parseManifest()], the map being listed in its
    iteration order. *)
Abbreviation legacy := (option (Result (list (Z * CompatManifest)))).

Inductive ListenerResult : Type := Propagate | Stop.

Section Manager.
Context `{Json} `{NongsOps}.

(** *** [NongManager::saveNongs], lines 303-325 *)

Fixpoint saveNongs_loop (saveID : option Z)
    (entries : list (Z * option Nongs)) (fs : directory)
    : outcome (Result () * directory) :=
  match entries with
  | [] => Normal (Ok (), fs)
  | (id, second) :: rest =>
      if match saveID with Some v => negb (v =? id) | None => false end
      then saveNongs_loop saveID rest fs
      else
        match second with
        | None => NullDeref
        | Some n =>
            let '(res, fs') := Nongs_commit n fs in
            match res with
            | Err e => Normal (Err e, fs')
            | Ok _ => saveNongs_loop saveID rest fs'
            end
        end
  end.

(** The map is walked in the order of [map_to_list], which stands for
    the unspecified order of the hash map. *)
Definition saveNongs (saveID : option Z) (m : manifest) (fs : directory)
    : outcome (Result () * directory) :=
  saveNongs_loop saveID (map_to_list m) fs.

(** *** [NongManager::migrateV2], lines 237-301 *)

(** Lines 271-278: is there a stored local entry that the comparison of
    the source accepts for the incoming entry [i]? The first conjunct
    compares the stored start offset with itself. *)
Definition dedup_found (stored_locals : list LocalSong) (i : LocalSong)
    : bool :=
  existsb
    (fun stored =>
       bool_decide (startOffset (l_metadata stored)
                    = startOffset (l_metadata stored))
       && bool_decide (name (l_metadata stored) = name (l_metadata i))
       && bool_decide (artist (l_metadata stored) = artist (l_metadata i)))
    stored_locals.

(** Lines 266-290: the songs of one legacy record are folded into the
    aggregate; the result of [add] is only logged. *)
Fixpoint migrate_songs (default_path : string) (songs : list LocalSong)
    (nongs : Nongs) : Nongs :=
  match songs with
  | [] => nongs
  | i :: rest =>
      if path_equal (l_path i) default_path then
        migrate_songs default_path rest nongs
      else if dedup_found (locals nongs) i then
        migrate_songs default_path rest nongs
      else
        migrate_songs default_path rest (snd (Nongs_add i nongs))
  end.

(** Lines 255-295: one iteration per legacy record. *)
Fixpoint migrate_records (records : list (Z * CompatManifest))
    (m : manifest) (fs : directory) : outcome (manifest * directory) :=
  match records with
  | [] => Normal (m, fs)
  | (id, rec) :: rest =>
      let m1 :=
        if negb (contains m id)
        then map_insert id (create id (c_defaultSong rec)) m
        else m in
      let '(m2, ptr) := map_index id m1 in
      match ptr with
      | None => NullDeref
      | Some nongs =>
          let n1 :=
            migrate_songs (l_path (c_defaultSong rec)) (c_songs rec) nongs in
          let n2 :=
            snd (Nongs_setActive (uniqueID (l_metadata (c_active rec))) n1) in
          let fs' := snd (Nongs_commit n2 fs) in
          migrate_records rest (<[id := Some n2]> m2) fs'
      end
  end.

(** [backed_up] records that [compat::v2::backupManifest(true)] ran. *)
Definition migrateV2 (old : legacy) (m : manifest) (fs : directory)
    : outcome (Result () * manifest * directory * bool) :=
  match old with
  | None => Normal (Ok (), m, fs, false)
  | Some (Err e) => Normal (Err e, m, fs, false)
  | Some (Ok records) =>
      '(m', fs') ← migrate_records records m fs;
      Normal (Ok (), m', fs', true)
  end.

(** *** The listener bound to the song-info event, lines 176-194 *)

Definition songInfoListener (gdSongID : Z) (songName artistName : string)
    (m : manifest) (fs : directory)
    : outcome (ListenerResult * manifest * directory) :=
  match getNongs m gdSongID with
  | None => Normal (Stop, m, fs)
  | Some None => NullDeref
  | Some (Some nongs) =>
      let md := l_metadata (defaultSong nongs) in
      if bool_decide (songName = name md)
         && bool_decide (artistName = artist md)
      then Normal (Stop, m, fs)
      else
        let m' :=
          <[gdSongID :=
              Some (set_default_name_artist songName artistName nongs)]> m in
        '(_, fs') ← saveNongs (Some gdSongID) m' fs;
        Normal (Propagate, m', fs')
  end.

(** *** [NongManager::init], lines 166-235 *)

Record NongManager : Type := mkManager {
  m_initialized : bool;
  m_nongs : manifest
}.

(** [listing] is what the directory iterator yields for the manifest
    directory [fs]. The result is the returned [bool], the manager, the
    directory and whether the legacy manifest was backed up. The two
    listeners are bound by [init]; the one for song info is
    [songInfoListener]. *)
Definition init (listing : list string) (old : legacy)
    (mgr : NongManager) (fs : directory)
    : outcome (bool * NongManager * directory * bool) :=
  if m_initialized mgr then Normal (true, mgr, fs, false)
  else
    '(fs1, m1) ← scanManifestDir listing fs (m_nongs mgr);
    '(_, m2, fs2, backed_up) ← migrateV2 old m1 fs1;
    Normal (true, mkManager true m2, fs2, backed_up).

End Manager.

(** ** The mutation entry points, lines 375-434 *)

Section Facade.
Context `{NongsOps}.

Definition not_initialized : string := "Song not initialized in manifest".

(** [Err("Couldn't delete Nong: {}", err.error())] *)
Definition couldnt_delete (e : string) : string :=
  String.append "Couldn't delete Nong: " e.

(** A method called through a pointer into the map changes the stored
    aggregate in place: the binding of the key is replaced. *)

(** [addNongs], lines 375-385: the stored aggregate is found under the
    song ID of the argument, and the ID that is saved is read back from
    the stored aggregate after the merge. *)
Definition addNongs (nongs : Nongs) (m : manifest) (fs : directory)
    : outcome (Result () * manifest * directory) :=
  if negb (contains m (songID nongs)) then
    Normal (Err not_initialized, m, fs)
  else
    match snd (map_index (songID nongs) m) with
    | None => NullDeref
    | Some manifestNongs =>
        let '(err, manifestNongs') := Nongs_merge nongs manifestNongs in
        let m' := <[songID nongs := Some manifestNongs']> m in
        match err with
        | Err e => Normal (Err e, m', fs)
        | Ok _ =>
            '(r, fs') ← saveNongs (Some (songID manifestNongs')) m' fs;
            Normal (r, m', fs')
        end
    end.

(** [setActiveSong], lines 387-396 *)
Definition setActiveSong (gdSongID : Z) (uniqueID : string)
    (m : manifest) (fs : directory)
    : outcome (Result () * manifest * directory) :=
  match getNongs m gdSongID with
  | None => Normal (Err not_initialized, m, fs)
  | Some None => NullDeref
  | Some (Some nongs) =>
      let '(err, nongs') := Nongs_setActive uniqueID nongs in
      let m' := <[gdSongID := Some nongs']> m in
      match err with
      | Err e => Normal (Err e, m', fs)
      | Ok _ =>
          '(r, fs') ← saveNongs (Some gdSongID) m' fs;
          Normal (r, m', fs')
      end
  end.

(** [deleteAllSongs], lines 398-408 *)
Definition deleteAllSongs (gdSongID : Z) (m : manifest) (fs : directory)
    : outcome (Result () * manifest * directory) :=
  match getNongs m gdSongID with
  | None => Normal (Err not_initialized, m, fs)
  | Some None => NullDeref
  | Some (Some nongs) =>
      let '(err, nongs') := Nongs_deleteAllSongs nongs in
      let m' := <[gdSongID := Some nongs']> m in
      match err with
      | Err e => Normal (Err e, m', fs)
      | Ok _ =>
          '(r, fs') ← saveNongs (Some gdSongID) m' fs;
          Normal (r, m', fs')
      end
  end.

(** [deleteSongAudio], lines 410-421 *)
Definition deleteSongAudio (gdSongID : Z) (uniqueID : string)
    (m : manifest) (fs : directory)
    : outcome (Result () * manifest * directory) :=
  match getNongs m gdSongID with
  | None => Normal (Err not_initialized, m, fs)
  | Some None => NullDeref
  | Some (Some nongs) =>
      let '(err, nongs') := Nongs_deleteSongAudio uniqueID nongs in
      let m' := <[gdSongID := Some nongs']> m in
      match err with
      | Err e => Normal (Err (couldnt_delete e), m', fs)
      | Ok _ =>
          '(r, fs') ← saveNongs (Some gdSongID) m' fs;
          Normal (r, m', fs')
      end
  end.

(** [deleteSong], lines 423-434: the commit goes through the aggregate,
    not through [saveNongs]. *)
Definition deleteSong (gdSongID : Z) (uniqueID : string)
    (m : manifest) (fs : directory)
    : outcome (Result () * manifest * directory) :=
  match getNongs m gdSongID with
  | None => Normal (Err not_initialized, m, fs)
  | Some None => NullDeref
  | Some (Some nongs) =>
      let '(err, nongs') := Nongs_deleteSong uniqueID nongs in
      let m' := <[gdSongID := Some nongs']> m in
      match err with
      | Err e => Normal (Err (couldnt_delete e), m', fs)
      | Ok _ =>
          let '(r, fs') := Nongs_commit nongs' fs in
          Normal (r, m', fs')
      end
  end.

End Facade.

(** ** Sizes of audio files, lines 101-164 *)

(** The arithmetic on [float] and [double] and the stream formatting are
    kept abstract. *)
Class FloatOps : Type := {
  float : Type;
  double : Type;
  float_zero : float;                      (* 0.f *)
  float_of_size : N -> float;              (* uintmax_t to float *)
  float_add : float -> float -> float;
  to_megabytes : float -> double;          (* x / 1024.f / 1024.f *)
  put_precision3 : double -> string        (* ss << setprecision(3) << x *)
}.

(** The audio files the size queries look at: path to size in bytes. *)
Abbreviation sizes := (gmap string N).

(** What [while (std::getline(stream, s, ','))] iterates over: the last
    segment is not produced when it is empty, since [getline] then
    extracts nothing before the end of the stream. *)
Definition getline_tokens (s : string) : list string :=
  let segs := split_on ","%char s in
  match last segs with
  | Some "" => removelast segs
  | _ => segs
  end.

Section Sizes.
Context `{Host} `{FloatOps}.

Definition megabytes_text (x : float) : string :=
  String.append (put_precision3 (to_megabytes x)) "MB".

(** [getFormattedSize]: [file_size(path, code)] sets [code] exactly when
    the size cannot be read. *)
Definition getFormattedSize (fs : sizes) (path : string) : string :=
  match fs !! path with
  | None => "N/A"
  | Some size => megabytes_text (float_of_size size)
  end.

(** [sum += file_size(path)] guarded by [exists(path)]. *)
Definition add_size_if_exists (fs : sizes) (path : string) (sum : float)
    : float :=
  match fs !! path with
  | Some size => float_add sum (float_of_size size)
  | None => sum
  end.

Definition resources : string := path_join getWritablePath2 "Resources".

(** One iteration of the loop over the song IDs, lines 127-139. *)
Definition song_step (m : manifest) (fs : sizes) (s : string) (sum : float)
    : outcome float :=
  id ← stoi s;
  match getNongs m id with
  | None => Normal sum
  | Some None => NullDeref
  | Some (Some nongs) =>
      match Nong.active nongs with
      | None => NullDeref
      | Some song =>
          match Nong.path song with
          | None => Throws bad_optional_access
          | Some p =>
              let p' := if starts_with "songs/" p
                        then path_join resources p else p in
              Normal (add_size_if_exists fs p' sum)
          end
      end
  end.

Fixpoint song_loop (m : manifest) (fs : sizes) (tokens : list string)
    (sum : float) : outcome float :=
  match tokens with
  | [] => Normal sum
  | s :: rest => sum' ← song_step m fs s sum; song_loop m fs rest sum'
  end.

(** One iteration of the loop over the sound effects, lines 143-155. *)
Definition sfx_step (fs : sizes) (s : string) (sum : float) : float :=
  let filename := String.append "s" (String.append s ".ogg") in
  let localPath := path_join (path_join resources "sfx") filename in
  match fs !! localPath with
  | Some size => float_add sum (float_of_size size)
  | None => add_size_if_exists fs (path_join getWritablePath filename) sum
  end.

(** The body of the task that [getMultiAssetSizes] starts. *)
Definition getMultiAssetSizes (m : manifest) (fs : sizes)
    (songs sfx : string) : outcome string :=
  sum ← song_loop m fs (getline_tokens songs) float_zero;
  Normal (megabytes_text
            (fold_left (fun acc s => sfx_step fs s acc)
                       (getline_tokens sfx) sum)).

End Sizes.

(** ** The aggregate's methods and the other collaborators, from the
    specification

    These instances are used to run the manager on concrete inputs. The
    theorems about the manager hold for every instance. *)

Module SpecModel.

Definition uid_of (s : Song) : string := uniqueID (metadata s).

Definition has_uid (n : Nongs) (uid : string) : bool :=
  bool_decide (uid ∈ (uid_of <$> entries n)).

Definition with_locals (ls : list LocalSong) (n : Nongs) : Nongs :=
  mkNongs (songID n) (defaultSong n) ls (youtubes n) (hosteds n)
          (activeID n).

Definition with_active (uid : string) (n : Nongs) : Nongs :=
  mkNongs (songID n) (defaultSong n) (locals n) (youtubes n) (hosteds n)
          uid.

Definition default_uid (n : Nongs) : string :=
  uniqueID (l_metadata (defaultSong n)).

(** Modelled from the spec: [Nongs::add] for a Local entry, absent from
    the translated sources. It appends the entry to the list of its
    variant; it fails when the uniqueID collides with an existing entry
    or when the entry's gdID is not the aggregate's songID; it does not
    activate the entry. *)
Definition add (e : LocalSong) (n : Nongs) : Result () * Nongs :=
  if has_uid n (uniqueID (l_metadata e)) then
    (Err "Duplicate unique ID", n)
  else if negb (bool_decide (gdID (l_metadata e) = songID n)) then
    (Err "Song ID mismatch", n)
  else (Ok (), with_locals (locals n ++ [e])%list n).

(** Modelled from the spec: [Nongs::setActive], absent from the
    translated sources. It fails if no entry has that uniqueID and
    otherwise sets [activeID]. *)
Definition setActive (uid : string) (n : Nongs) : Result () * Nongs :=
  if has_uid n uid then (Ok (), with_active uid n)
  else (Err "No song found with given ID", n).

(** Modelled from the spec: [Nongs::deleteAllSongs], absent from the
    translated sources. It drops every candidate, keeps the default and
    resets [activeID] to the default. The audio files it unlinks live
    outside the manifest directory. *)
Definition deleteAllSongs (n : Nongs) : Result () * Nongs :=
  (Ok (), mkNongs (songID n) (defaultSong n) [] [] [] (default_uid n)).

Definition keep_other {A} (meta : A -> SongMetadata) (uid : string)
    (l : list A) : list A :=
  List.filter (fun x => negb (bool_decide (uniqueID (meta x) = uid))) l.

(** Modelled from the spec: [Nongs::deleteSong], absent from the
    translated sources. It fails on the default's uniqueID and on an
    unknown one; otherwise it removes the entry from the list that holds
    it and resets [activeID] to the default if the entry was active. *)
Definition deleteSong (uid : string) (n : Nongs) : Result () * Nongs :=
  if bool_decide (uid = default_uid n) then
    (Err "Cannot delete default song", n)
  else if negb (has_uid n uid) then
    (Err "No song found with given ID", n)
  else
    (Ok (),
     mkNongs (songID n) (defaultSong n)
             (keep_other l_metadata uid (locals n))
             (keep_other y_metadata uid (youtubes n))
             (keep_other h_metadata uid (hosteds n))
             (if bool_decide (activeID n = uid) then default_uid n
              else activeID n)).

(** Modelled from the spec: [Nongs::deleteSongAudio], absent from the
    translated sources. Only for a Local entry: it clears the path and
    keeps the metadata; it fails if the entry is not Local or is not
    found. *)
Definition deleteSongAudio (uid : string) (n : Nongs) : Result () * Nongs :=
  if existsb (fun l => bool_decide (uniqueID (l_metadata l) = uid))
             (locals n)
  then
    (Ok (),
     with_locals
       ((fun l => if bool_decide (uniqueID (l_metadata l) = uid)
                  then mkLocal (l_metadata l) "" else l) <$> locals n) n)
  else (Err "No local song found with given ID", n).

Definition same_triple (a b : SongMetadata) : bool :=
  bool_decide (name a = name b) && bool_decide (artist a = artist b)
  && bool_decide (startOffset a = startOffset b).

(** The candidates of [incoming] that share no (name, artist,
    startOffset) triple with an entry already in [acc], appended to
    [acc] in order. *)
Definition merge_list {A} (meta : A -> SongMetadata)
    (acc incoming : list A) : list A :=
  fold_left
    (fun acc x =>
       if existsb (fun y => same_triple (meta y) (meta x)) acc then acc
       else (acc ++ [x])%list)
    incoming acc.

(** Modelled from the spec: [Nongs::merge], absent from the translated
    sources. Each candidate of the other aggregate is added unless an
    entry of the same variant has the same (name, artist, startOffset)
    triple; the default keeps its uniqueID and path and takes the
    incoming name and artist. *)
Definition merge (other n : Nongs) : Result () * Nongs :=
  let od := l_metadata (defaultSong other) in
  let n1 := set_default_name_artist (name od) (artist od) n in
  (Ok (),
   mkNongs (songID n1) (defaultSong n1)
           (merge_list l_metadata (locals n1) (locals other))
           (merge_list y_metadata (youtubes n1) (youtubes other))
           (merge_list h_metadata (hosteds n1) (hosteds other))
           (activeID n1)).

Definition manifest_file (id : Z) : string :=
  String.append (pretty id) ".json".

(** A serialisation that keeps what the examples look at: the song ID,
    the active uniqueID and the default's name and artist. *)
Definition serialize (n : Nongs) : string :=
  let d := l_metadata (defaultSong n) in
  String.append (pretty (songID n))
    (String.append ";"
       (String.append (activeID n)
          (String.append ";"
             (String.append (name d) (String.append ";" (artist d)))))).

(** Modelled from the spec: [Nongs::commit], absent from the translated
    sources. It writes the serialised aggregate to [<songID>.json] in the
    manifest directory; IO errors do not occur in this instance. *)
Definition commit (n : Nongs) (fs : directory) : Result () * directory :=
  (Ok (), <[manifest_file (songID n) := serialize n]> fs).

#[export] Instance ops : NongsOps := {|
  Nongs_add := add;
  Nongs_merge := merge;
  Nongs_setActive := setActive;
  Nongs_deleteSong := deleteSong;
  Nongs_deleteSongAudio := deleteSongAudio;
  Nongs_deleteAllSongs := deleteAllSongs;
  Nongs_commit := commit
|}.

(** A stand-in for the JSON library and the deserialiser: a file whose
    content starts with an opening brace and nothing else does not
    parse; any other content is a document, deserialised to an aggregate
    of the ID taken from the file name, whose default entry is named by
    the content. *)
#[export] Instance text_json : Json := {|
  json := string;
  json_parse := fun contents =>
    if bool_decide (contents = "{") then Err "unexpected end of input"
    else Ok contents;
  from_json := fun j id =>
    Ok (create id (mkLocal (mkMetadata id "default" j "" 0 None) ""))
|}.

(** A host with no cached song information. *)
#[export] Instance quiet_host : Host := {|
  getAudioFileName := fun id => String.append (pretty id) ".mp3";
  getWritablePath2 := "/gd";
  getWritablePath := "/save";
  pathForSong := fun id =>
    String.append "/save/" (String.append (pretty id) ".mp3");
  getSongInfoObject := fun _ => None;
  random_string := fun n => String.append "uid" (pretty n)
|}.

(** Exact arithmetic on byte counts in place of [float]: sums are natural
    numbers and the text is the number of whole megabytes. *)
#[export] Instance exact_floats : FloatOps := {|
  float := N;
  double := N;
  float_zero := 0%N;
  float_of_size := fun n => n;
  float_add := N.add;
  to_megabytes := fun x => (x / 1024 / 1024)%N;
  put_precision3 := fun x => pretty x
|}.

End SpecModel.

(** ** What a scan of the manifest directory amounts to *)

(** No key of the manifest is bound to a null pointer. *)
Definition no_null (m : manifest) : Prop :=
  forall k, m !! k <> Some None.

(** The stem of a file the loader looks at is accepted by [std::stoi]. *)
Definition stem_is_number (f : string) : bool :=
  match stoi (stem f) with
  | Normal _ => true
  | _ => false
  end.

Definition numbered (f : string) : Prop :=
  extension f = ".json" -> stem_is_number f = true.

(** The aggregates are inserted one after the other. *)
Definition insert_all (ns : list Nongs) (m : manifest) : manifest :=
  fold_left (fun acc n => map_insert (songID n) n acc) ns m.

Section ScanSummary.
Context `{Json}.

(** The aggregate the loop of [init] obtains from the file [f], if the
    file has the extension [.json] and loads. *)
Definition loads_ok (fs : directory) (f : string) : option Nongs :=
  if bool_decide (extension f = ".json") then
    match loadNongsFromPath fs f with
    | Normal (Ok n) => Some n
    | _ => None
    end
  else None.

(** The file [f] has the extension [.json] and its load returns an
    error. *)
Definition load_fails (fs : directory) (f : string) : bool :=
  bool_decide (extension f = ".json")
  && match loadNongsFromPath fs f with
     | Normal (Err _) => true
     | _ => false
     end.

(** The aggregates of the files that load, in the order of the
    listing. *)
Definition loaded (fs : directory) (listing : list string) : list Nongs :=
  omap (loads_ok fs) listing.

End ScanSummary.

(** ** The contract of the mutation entry points *)

Section FacadeContract.
Context `{NongsOps}.

(** What the specification asks of an entry point [run] that works on
    the aggregate of the song [id] through the aggregate's [method]:
    without an aggregate under [id] it fails with "Song not initialized
    in manifest" and changes nothing; with an aggregate (one that
    satisfies [pre]) it runs [method] on it and, if that succeeds,
    commits this aggregate and no other, returning the result of the
    commit; if [method] fails, its error is returned through [on_err]
    and nothing is committed. *)
Definition guarded_delegate (id : Z)
    (method : Nongs -> Result () * Nongs) (on_err : string -> string)
    (pre : Nongs -> Prop)
    (run : manifest -> directory -> outcome (Result () * manifest * directory))
    : Prop :=
  forall (m : manifest) (fs : directory),
    (m !! id = None -> run m fs = Normal (Err not_initialized, m, fs))
    /\ (forall nongs, m !! id = Some (Some nongs) -> pre nongs ->
          run m fs
          = let '(res, nongs') := method nongs in
            let m' := <[id := Some nongs']> m in
            match res with
            | Err e => Normal (Err (on_err e), m', fs)
            | Ok _ =>
                let '(r, fs') := Nongs_commit nongs' fs in
                Normal (r, m', fs')
            end).

End FacadeContract.

(** ** Song tokens of a size query *)

(** The token is a number, and if the manifest has an aggregate for it,
    the aggregate has an active entry. *)
Definition resolvable (m : manifest) (s : string) : Prop :=
  exists id, stoi s = Normal id
    /\ (m !! id = None
        \/ exists n e, m !! id = Some (Some n) /\ Nong.active n = Some e).

(** If the manifest has an aggregate for the token, its active entry has a
    path. *)
Definition active_has_path (m : manifest) (s : string) : Prop :=
  forall id n, stoi s = Normal id -> m !! id = Some (Some n) ->
    exists e p, Nong.active n = Some e /\ Nong.path e = Some p.

(** ** The remaining queries of the manager *)

(** The value an [int] takes when it is given the unsigned [z]. *)
Definition wrap_int (z : Z) : Z := (z + 2 ^ 31) mod 2 ^ 32 - 2 ^ 31.

(** [NongManager::getStoredIDCount], line 39: the size of the map, the
    keys bound to a null pointer included. *)
Definition getStoredIDCount (m : manifest) : Z := wrap_int (Z.of_nat (size m)).

Section SongFilePath.
Context `{Host}.

(** [NongManager::generateSongFilePath], lines 436-446. [saveDir] is
    [Mod::get()->getSaveDir()], which exists, and [dirs] is the set of the
    directories that exist. The argument of [value_or] is evaluated
    before the call, so a random string is drawn in every case.
    [extension] is appended to the name as it is. *)
Definition generateSongFilePath (saveDir extension : string)
    (filename : option string) (dirs : gset string) (h : HostLog)
    : string * gset string * HostLog :=
  let '(random, h') := draw h in
  let unique := default random filename in
  let destination := path_join saveDir "nongs" in
  let dirs' :=
    if bool_decide (destination ∈ dirs) then dirs
    else {[ destination ]} ∪ dirs in
  (path_join destination (String.append unique extension), dirs', h').

End SongFilePath.

(** The entry point [run], called for the song [id], adds and removes no
    key of the manifest and leaves the binding of every other song as it
    is, whenever it returns. *)
Definition keeps_keys (id : Z)
    (run : manifest -> directory -> outcome (Result () * manifest * directory))
    : Prop :=
  forall (m m' : manifest) (fs fs' : directory) (r : Result ()),
    run m fs = Normal (r, m', fs') ->
    dom m' = dom m /\ forall k, k <> id -> m' !! k = m !! k.

(** The characters of [s] are not [c]. *)
Fixpoint free_of (c : ascii) (s : string) : bool :=
  match s with
  | EmptyString => true
  | String d r => negb (bool_decide (d = c)) && free_of c r
  end.

(** ** Concrete inputs *)

Module Examples.

(** A manifest directory with a file of stem 0, a file that is not JSON, a
    file that loads and a file that is not a manifest. *)
Definition quarantine_listing : list string :=
  ["0.json"; "7.json"; "8.json"; "notes.txt"].

Definition quarantine_dir : directory :=
  <["0.json" := "zero"]>
    (<["7.json" := "{"]>
       (<["8.json" := "eight"]> (<["notes.txt" := "n"]> ∅))).

(** Two files whose stems both read as the number 7. *)
Definition dup_listing : list string := ["7.json"; "07.json"].

Definition dup_dir : directory :=
  <["7.json" := "first"]> (<["07.json" := "second"]> ∅).

(** The aggregate of song 42: the default entry [D] and one local
    candidate [L1]. *)
Definition agg42 : Nongs :=
  mkNongs 42 (mkLocal (mkMetadata 42 "D" "Old" "Someone" 0 None) "songs/42.mp3")
          [mkLocal (mkMetadata 42 "L1" "Remix" "Other" 0 None) "/nongs/l1.mp3"]
          [] [] "D".

Definition manifest42 : manifest := {[ 42 := Some agg42 ]}.

(** An aggregate to merge into the one of song 42. *)
Definition incoming42 : Nongs :=
  mkNongs 42 (mkLocal (mkMetadata 42 "X" "Old" "Someone" 0 None) "")
          [mkLocal (mkMetadata 42 "L2" "Cover" "Third" 0 None) "/nongs/l2.mp3"]
          [] [] "X".

(** Song 1 plays its default file; song 2 has a Youtube entry active,
    which has no path. *)
Definition agg1 : Nongs :=
  mkNongs 1 (mkLocal (mkMetadata 1 "D1" "One" "A" 0 None) "songs/1.mp3")
          [] [] [] "D1".

Definition agg2 : Nongs :=
  mkNongs 2 (mkLocal (mkMetadata 2 "D2" "Two" "B" 0 None) "songs/2.mp3")
          [] [mkYT (mkMetadata 2 "Y2" "Two (live)" "B" 0 None) "https://yt/2"]
          [] "Y2".

Definition manifest12 : manifest := <[1 := Some agg1]> {[ 2 := Some agg2 ]}.

Definition audio_files : sizes := {[ "/gd/Resources/songs/1.mp3" := 3145728%N ]}.

End Examples.

(** * Properties *)

(** ** Song ID adjustment *)

Lemma adjustSongID_robtop_negative (id : Z) : adjustSongID id true < 0.
Proof.
  unfold adjustSongID. destruct (Z.ltb_spec id 0); lia.
Qed.

(** The derived key of a 32-bit ID is a 32-bit integer: [- id - 1] is only
    computed for [0 <= id]. *)
Lemma adjustSongID_is_int (id : Z) (robtop : bool) :
  is_int id -> is_int (adjustSongID id robtop).
Proof.
  unfold is_int, int_min, int_max, adjustSongID.
  destruct robtop; [destruct (Z.ltb_spec id 0)|]; lia.
Qed.

(** C9: [adjustSongID] with [robtop = true] is idempotent, an ID that is
    already negative being returned as it is, and with [robtop = false] it
    is the identity. *)
Theorem adjustSongID_idempotent (id : Z) :
  adjustSongID (adjustSongID id true) true = adjustSongID id true
  /\ adjustSongID id false = id.
Proof.
  split.
  - pose proof (adjustSongID_robtop_negative id) as Hneg.
    unfold adjustSongID at 1.
    destruct (Z.ltb_spec (adjustSongID id true) 0); [reflexivity | lia].
  - reflexivity.
Qed.

Lemma adjustSongID_negative_unchanged (id : Z) :
  id < 0 -> adjustSongID id true = id.
Proof.
  intros Hlt. unfold adjustSongID.
  destruct (Z.ltb_spec id 0); [reflexivity | lia].
Qed.

(** ** The manifest map *)

Lemma contains_true (m : manifest) (k : Z) :
  contains m k = true <-> is_Some (m !! k).
Proof. unfold contains. apply bool_decide_eq_true. Qed.

Lemma contains_false (m : manifest) (k : Z) :
  contains m k = false <-> m !! k = None.
Proof.
  unfold contains. rewrite bool_decide_eq_false.
  rewrite eq_None_not_Some. reflexivity.
Qed.

Lemma getNongs_lookup (m : manifest) (k : Z) : getNongs m k = m !! k.
Proof.
  unfold getNongs, map_index.
  destruct (m !! k) as [p|] eqn:E.
  - assert (contains m k = true) as -> by (apply contains_true; eauto).
    reflexivity.
  - assert (contains m k = false) as -> by (apply contains_false; done).
    reflexivity.
Qed.

Lemma map_insert_lookup (k j : Z) (n : Nongs) (m : manifest) :
  map_insert k n m !! j
  = match m !! j with
    | Some p => Some p
    | None => if decide (k = j) then Some (Some n) else None
    end.
Proof.
  unfold map_insert.
  destruct (contains m k) eqn:E.
  - apply contains_true in E as [p Hp].
    destruct (m !! j) eqn:Ej; [reflexivity|].
    destruct (decide (k = j)) as [->|]; congruence.
  - apply contains_false in E.
    rewrite lookup_insert. destruct (decide (k = j)) as [->|].
    + rewrite E. reflexivity.
    + destruct (m !! j); reflexivity.
Qed.

Lemma map_insert_present (k : Z) (n : Nongs) (m : manifest) :
  is_Some (m !! k) -> map_insert k n m = m.
Proof.
  intros Hk. unfold map_insert.
  apply contains_true in Hk. rewrite Hk. reflexivity.
Qed.

(** ** [initSongID] *)

Section InitSongIDFacts.
Context `{Host}.

(** For a built-in song given by its non-negative ID, the aggregate is
    inserted under the derived key, but the existence check and the
    final lookup use [id]: the lookup binds [id] to a null pointer, which
    is what the index manager is handed. *)
Lemma initSongID_robtop_nonneg (o : SongInfoObject) (id : Z)
    (m : manifest) (h : HostLog) :
  0 <= id -> m !! id = None ->
  initSongID (Some o) id true m h
  = (<[id := None]>
       (map_insert (- id - 1)
          (create (- id - 1)
             (mkLocal
                (mkMetadata (- id - 1) (random_string (draws h))
                            (m_songName o) (m_artistName o) 0 None)
                (path_join (path_join getWritablePath2 "Resources")
                           (getAudioFileName id))))
          m),
     register_index nullptr (snd (draw h))).
Proof.
  intros Hid Hm. unfold initSongID.
  assert (contains m id = false) as -> by (apply contains_false; done).
  cbn [negb bool_decide andb]. 
  assert (adjustSongID id true = - id - 1) as ->.
  { unfold adjustSongID. destruct (Z.ltb_spec id 0); lia. }
  cbn [draw fst snd negb].
  unfold map_index. rewrite map_insert_lookup, Hm.
  destruct (decide (- id - 1 = id)) as [E|_]; [lia|].
  reflexivity.
Qed.

(** C1, on the input it fails on: an aggregate [A] is stored under the
    derived key [-1] and [initSongID(obj, 0, true)] is called with a
    non-null [obj]. The call does not return early: the existence check
    looks for the key [0]. It leaves [A] in place, binds the key [0] to
    a null pointer and registers that null pointer with the index. *)
Theorem initSongID_robtop_checks_raw_id (o : SongInfoObject) (A : Nongs)
    (h : HostLog) :
  let m : manifest := {[ adjustSongID 0 true := Some A ]} in
  let '(m', h') := initSongID (Some o) 0 true m h in
  m' = <[0 := None]> m
  /\ m' <> m
  /\ index_registered h' = (index_registered h ++ [nullptr])%list.
Proof.
  cbn zeta. change (adjustSongID 0 true) with (-1).
  rewrite initSongID_robtop_nonneg by (try lia; reflexivity).
  change (- 0 - 1) with (-1).
  rewrite map_insert_present
    by (rewrite lookup_singleton_eq; eauto).
  split; [reflexivity|]. split; [|reflexivity].
  intros E. apply (f_equal (fun x : manifest => x !! 0)) in E.
  rewrite lookup_insert_eq in E. discriminate E.
Qed.

(** When the caller passes the derived key itself, the three uses of the
    key agree, and a second call is a no-op. *)
Lemma initSongID_existing (obj : option SongInfoObject) (id : Z)
    (robtop : bool) (m : manifest) (h : HostLog) :
  is_Some (m !! id) -> initSongID obj id robtop m h = (m, h).
Proof.
  intros Hk. unfold initSongID.
  apply contains_true in Hk. rewrite Hk. reflexivity.
Qed.

End InitSongIDFacts.

(** ** File names *)

Lemma split_last_dot_cons (c : ascii) (r : string) :
  split_last_dot (String c r)
  = match split_last_dot r with
    | Some (a, b) => Some (String c a, b)
    | None => if bool_decide (c = "."%char) then Some ("", String c r)
              else None
    end.
Proof. reflexivity. Qed.

Lemma split_last_dot_bak (f : string) :
  split_last_dot (String.append f ".bak") = Some (f, ".bak").
Proof.
  induction f as [|c f IH]; [reflexivity|].
  change (String.append (String c f) ".bak")
    with (String c (String.append f ".bak")).
  rewrite split_last_dot_cons, IH. reflexivity.
Qed.

(** A quarantined name never has the extension the loader looks for. *)
Lemma extension_bak (f : string) :
  extension (String.append f ".bak") <> ".json".
Proof.
  unfold extension. rewrite split_last_dot_bak.
  destruct (is_dot_or_dotdot _); [discriminate|].
  destruct f; discriminate.
Qed.

Lemma append_bak_inj (f g : string) :
  String.append f ".bak" = String.append g ".bak" -> f = g.
Proof.
  intros E.
  pose proof (split_last_dot_bak f) as Hf.
  pose proof (split_last_dot_bak g) as Hg.
  rewrite E in Hf. congruence.
Qed.

(** ** Startup: files whose stem is not a number *)

Section StartupThrows.
Context `{Json} `{NongsOps}.

Lemma scanManifestDir_stoi_throws (f : string) (e : exn)
    (rest : list string) (fs : directory) (m : manifest) :
  extension f = ".json" -> stoi (stem f) = Throws e ->
  scanManifestDir (f :: rest) fs m = Throws e.
Proof.
  intros Hext Hstoi. cbn [scanManifestDir].
  rewrite bool_decide_eq_true_2 by exact Hext. cbn [negb].
  unfold loadNongsFromPath. rewrite Hstoi. reflexivity.
Qed.

(** C3, on the input it fails on: the manifest directory holds
    [abc.json]. [std::stoi] throws [std::invalid_argument] on the stem,
    nothing catches it, and [init] is left by that exception: the file is
    not skipped, the files after it are not loaded and [init] does not
    return. *)
Theorem init_throws_on_non_integer_stem (rest : list string) (old : legacy)
    (m : manifest) (fs : directory) :
  extension "abc.json" = ".json"
  /\ stoi (stem "abc.json") = Throws invalid_argument
  /\ loadNongsFromPath fs "abc.json" = Throws invalid_argument
  /\ init ("abc.json" :: rest) old (mkManager false m) fs
     = Throws invalid_argument.
Proof.
  split; [reflexivity|]. split; [reflexivity|]. split; [reflexivity|].
  unfold init. cbn [m_initialized m_nongs].
  rewrite (scanManifestDir_stoi_throws "abc.json" invalid_argument)
    by reflexivity.
  reflexivity.
Qed.

End StartupThrows.

(** ** V2 migration: the duplicate check *)

Section MigrationDedup.
Context `{NongsOps}.

(** What the comparison of lines 272-275 decides: the start offsets play
    no part in it. *)
Lemma dedup_found_name_artist (ls : list LocalSong) (i : LocalSong) :
  dedup_found ls i = true
  <-> exists stored, stored ∈ ls
      /\ name (l_metadata stored) = name (l_metadata i)
      /\ artist (l_metadata stored) = artist (l_metadata i).
Proof.
  unfold dedup_found. rewrite existsb_exists. split.
  - intros (s & Hin & Hs). exists s.
    apply andb_true_iff in Hs as [Hs Ha].
    apply andb_true_iff in Hs as [_ Hn].
    apply bool_decide_eq_true in Hn, Ha.
    split; [apply list_elem_of_In; exact Hin | done].
  - intros (s & Hin & Hn & Ha). exists s.
    split; [apply list_elem_of_In; exact Hin|].
    rewrite !andb_true_iff, !bool_decide_eq_true. done.
Qed.

Lemma migrate_songs_skips_found (dp : string) (i : LocalSong)
    (rest : list LocalSong) (n : Nongs) :
  dedup_found (locals n) i = true ->
  migrate_songs dp (i :: rest) n = migrate_songs dp rest n.
Proof.
  intros Hf. cbn [migrate_songs]. rewrite Hf.
  destruct (path_equal _ _); reflexivity.
Qed.

(** C2, on the input it fails on: the aggregate of ID 5 stores a local
    entry (A, B, start offset 0) and the legacy record brings an entry
    (A, B, start offset 5000) with another path and another uniqueID.
    The two triples differ, yet the check of the source finds the entry
    and the migration leaves the aggregate as it was: the entry is not
    added. *)
Theorem migrate_drops_entry_with_other_startOffset :
  let stored := mkLocal (mkMetadata 5 "u1" "A" "B" 0 None) "a.mp3" in
  let incoming := mkLocal (mkMetadata 5 "u2" "A" "B" 5000 None) "b.mp3" in
  let agg :=
    mkNongs 5 (mkLocal (mkMetadata 5 "d" "Song" "Author" 0 None) "d.mp3")
            [stored] [] [] "d" in
  SpecModel.same_triple (l_metadata stored) (l_metadata incoming) = false
  /\ l_path incoming <> "d.mp3"
  /\ dedup_found (locals agg) incoming = true
  /\ migrate_songs "d.mp3" [incoming] agg = agg.
Proof.
  cbn zeta. split; [reflexivity|]. split; [discriminate|].
  split; [reflexivity|].
  rewrite migrate_songs_skips_found by reflexivity. reflexivity.
Qed.

End MigrationDedup.

(** ** Startup: the scan of the manifest directory *)

Lemma no_null_map_insert (k : Z) (n : Nongs) (m : manifest) :
  no_null m -> no_null (map_insert k n m).
Proof.
  intros Hm j. rewrite map_insert_lookup.
  destruct (m !! j) as [p|] eqn:E.
  - rewrite <- E. apply Hm.
  - destruct (decide (k = j)); discriminate.
Qed.

Lemma no_null_insert_all (ns : list Nongs) (m : manifest) :
  no_null m -> no_null (insert_all ns m).
Proof.
  revert m. induction ns as [|n ns IH]; intros m Hm; [exact Hm|].
  apply IH, no_null_map_insert, Hm.
Qed.

(** The first aggregate inserted under a key stays there. *)
Lemma insert_all_lookup (ns : list Nongs) (m : manifest) (k : Z) :
  insert_all ns m !! k
  = match m !! k with
    | Some p => Some p
    | None =>
        option_map Some (List.find (fun n => bool_decide (songID n = k)) ns)
    end.
Proof.
  revert m. induction ns as [|n ns IH]; intros m.
  - cbn. destruct (m !! k); reflexivity.
  - cbn [insert_all fold_left]. fold (insert_all ns (map_insert (songID n) n m)).
    rewrite IH, map_insert_lookup. cbn [List.find].
    destruct (m !! k) as [p|]; [reflexivity|].
    destruct (decide (songID n = k)) as [E|E].
    + rewrite bool_decide_eq_true_2 by exact E. reflexivity.
    + rewrite bool_decide_eq_false_2 by exact E. reflexivity.
Qed.

Section Scan.
Context `{Json}.

(** A load only reads the file it is asked for. *)
Lemma loadNongsFromPath_agree (fs fs' : directory) (f : string) :
  fs !! f = fs' !! f -> loadNongsFromPath fs f = loadNongsFromPath fs' f.
Proof.
  intros E. unfold loadNongsFromPath. rewrite E. reflexivity.
Qed.

Lemma loads_ok_agree (fs fs' : directory) (f : string) :
  (extension f = ".json" -> fs !! f = fs' !! f) ->
  loads_ok fs f = loads_ok fs' f.
Proof.
  intros E. unfold loads_ok. case_bool_decide as Hx; [|reflexivity].
  rewrite (loadNongsFromPath_agree fs fs' f (E Hx)). reflexivity.
Qed.

Lemma load_fails_agree (fs fs' : directory) (f : string) :
  (extension f = ".json" -> fs !! f = fs' !! f) ->
  load_fails fs f = load_fails fs' f.
Proof.
  intros E. unfold load_fails. case_bool_decide as Hx; [|reflexivity].
  rewrite (loadNongsFromPath_agree fs fs' f (E Hx)). reflexivity.
Qed.

Lemma load_fails_extension (fs : directory) (f : string) :
  load_fails fs f = true -> extension f = ".json".
Proof.
  unfold load_fails. intros E. apply andb_true_iff in E as [E _].
  apply bool_decide_eq_true in E. exact E.
Qed.

Lemma load_fails_not_ok (fs : directory) (f : string) :
  load_fails fs f = true -> loads_ok fs f = None.
Proof.
  unfold load_fails, loads_ok. intros E.
  apply andb_true_iff in E as [_ E].
  destruct (bool_decide _); [|reflexivity].
  destruct (loadNongsFromPath fs f) as [[n|e]| |]; done.
Qed.

Lemma loads_ok_not_fails (fs : directory) (f : string) (n : Nongs) :
  loads_ok fs f = Some n -> load_fails fs f = false.
Proof.
  intros E. destruct (load_fails fs f) eqn:F; [|reflexivity].
  apply load_fails_not_ok in F. congruence.
Qed.

Lemma loaded_agree (fs fs' : directory) (l : list string) :
  (forall g, g ∈ l -> extension g = ".json" -> fs !! g = fs' !! g) ->
  loaded fs l = loaded fs' l.
Proof.
  induction l as [|g l IH]; intros E; [reflexivity|].
  unfold loaded. cbn [omap list_omap].
  rewrite (loads_ok_agree fs fs' g) by (apply E; left).
  fold (omap (loads_ok fs) l) (omap (loads_ok fs') l).
  fold (loaded fs l) (loaded fs' l).
  rewrite IH; [reflexivity|]. intros h Hh. apply E. right. exact Hh.
Qed.

(** The two failures the loader reports for a file whose stem is a
    number: the number is zero, or the content is not JSON. *)
Lemma load_fails_zero_stem (fs : directory) (f : string) :
  extension f = ".json" -> stoi (stem f) = Normal 0 ->
  load_fails fs f = true.
Proof.
  intros Hx Hs. unfold load_fails, loadNongsFromPath.
  rewrite bool_decide_eq_true_2 by exact Hx. rewrite Hs. reflexivity.
Qed.

Lemma load_fails_unparseable (fs : directory) (f contents err : string)
    (id : Z) :
  extension f = ".json" -> stoi (stem f) = Normal id ->
  fs !! f = Some contents -> json_parse contents = Err err ->
  load_fails fs f = true.
Proof.
  intros Hx Hs Hf Hp. unfold load_fails, loadNongsFromPath.
  rewrite bool_decide_eq_true_2 by exact Hx. rewrite Hs.
  cbn. destruct (id =? 0); [reflexivity|]. rewrite Hf, Hp. reflexivity.
Qed.

End Scan.

Section ScanSpec.
Context `{Json}.

Lemma numbered_stoi (f : string) :
  numbered f -> extension f = ".json" ->
  exists id, stoi (stem f) = Normal id.
Proof.
  intros Hn Hx. specialize (Hn Hx). unfold stem_is_number in Hn.
  destruct (stoi (stem f)) as [id| |]; [eauto|done|done].
Qed.

(** For a listing without repetition of files that exist and whose stems
    are numbers, the scan returns: the manifest receives the aggregates
    of the files that load, in order; each file that fails to load is
    moved to its [.bak] name; every other name of the directory is left
    as it is. *)
Lemma scanManifestDir_spec (listing : list string) :
  forall (fs : directory) (m : manifest),
  NoDup listing ->
  Forall (fun f => is_Some (fs !! f)) listing ->
  Forall numbered listing ->
  exists fs1,
    scanManifestDir listing fs m
    = Normal (fs1, insert_all (loaded fs listing) m)
    /\ (forall f, f ∈ listing -> load_fails fs f = true ->
          fs1 !! f = None /\ fs1 !! String.append f ".bak" = fs !! f)
    /\ (forall x,
          (x ∈ listing -> load_fails fs x = false) ->
          (forall g, g ∈ listing -> load_fails fs g = true ->
             x <> String.append g ".bak") ->
          fs1 !! x = fs !! x).
Proof.
  induction listing as [|f rest IH]; intros fs m Hnd Hex Hnum.
  { exists fs. split; [reflexivity|]. split; [|reflexivity].
    intros f Hf. apply elem_of_nil in Hf. done. }
  apply NoDup_cons in Hnd as [Hf_rest Hnd].
  apply Forall_cons in Hex as [Hf_ex Hex].
  apply Forall_cons in Hnum as [Hf_num Hnum].
  cbn [scanManifestDir]. unfold loaded. cbn [omap list_omap].
  fold (omap (loads_ok fs) rest). fold (loaded fs rest).
  destruct (decide (extension f = ".json")) as [Hx|Hx].
  2:{ (* not a manifest file *)
    rewrite bool_decide_eq_false_2 by exact Hx. cbn [negb].
    assert (loads_ok fs f = None) as ->.
    { unfold loads_ok. rewrite bool_decide_eq_false_2 by exact Hx. done. }
    assert (load_fails fs f = false) as Hnf.
    { unfold load_fails. rewrite bool_decide_eq_false_2 by exact Hx. done. }
    destruct (IH fs m Hnd Hex Hnum) as (fs1 & Hrun & Hbak & Hframe).
    exists fs1. split; [exact Hrun|]. split.
    - intros g Hg Hfail. apply elem_of_cons in Hg as [->|Hg].
      + congruence.
      + apply Hbak; assumption.
    - intros x Hx1 Hx2. apply Hframe.
      + intros Hin. apply Hx1. right. exact Hin.
      + intros g Hg. apply Hx2. right. exact Hg. }
  rewrite bool_decide_eq_true_2 by exact Hx. cbn [negb].
  destruct (numbered_stoi f Hf_num Hx) as [id Hid].
  destruct (loadNongsFromPath fs f) as [[n|e]| |] eqn:Hload.
  - (* the file loads *)
    assert (loads_ok fs f = Some n) as Hok.
    { unfold loads_ok. rewrite bool_decide_eq_true_2 by exact Hx.
      rewrite Hload. reflexivity. }
    rewrite Hok. cbn [mbind outcome_bind].
    destruct (IH fs (map_insert (songID n) n m) Hnd Hex Hnum)
      as (fs1 & Hrun & Hbak & Hframe).
    exists fs1. split; [exact Hrun|]. split.
    + intros g Hg Hfail. apply elem_of_cons in Hg as [->|Hg].
      * rewrite (loads_ok_not_fails _ _ _ Hok) in Hfail. done.
      * apply Hbak; assumption.
    + intros x Hx1 Hx2. apply Hframe.
      * intros Hin. apply Hx1. right. exact Hin.
      * intros g Hg. apply Hx2. right. exact Hg.
  - (* the load fails: the file is renamed *)
    assert (load_fails fs f = true) as Hfail.
    { unfold load_fails. rewrite bool_decide_eq_true_2 by exact Hx.
      rewrite Hload. reflexivity. }
    rewrite (load_fails_not_ok _ _ Hfail). cbn [mbind outcome_bind].
    destruct Hf_ex as [c Hc]. unfold rename. rewrite Hc.
    cbn [mbind outcome_bind].
    set (fs' := <[String.append f ".bak" := c]> (delete f fs)).
    assert (forall g, g <> f -> g <> String.append f ".bak" ->
              fs' !! g = fs !! g) as Hother.
    { intros g Hg1 Hg2. unfold fs'.
      rewrite lookup_insert_ne by congruence.
      rewrite lookup_delete_ne by congruence. reflexivity. }
    assert (forall g, g ∈ rest -> extension g = ".json" ->
              fs !! g = fs' !! g) as Hsame.
    { intros g Hg Hgx. symmetry. apply Hother.
      - intros ->. done.
      - intros ->. exact (extension_bak _ Hgx). }
    assert (Forall (fun g => is_Some (fs' !! g)) rest) as Hex'.
    { rewrite Forall_forall in Hex |- *. intros g Hg.
      destruct (decide (g = String.append f ".bak")) as [->|Hne].
      - unfold fs'. rewrite lookup_insert_eq. eauto.
      - rewrite Hother; [apply Hex; exact Hg | | exact Hne].
        intros ->. done. }
    destruct (IH fs' m Hnd Hex' Hnum) as (fs1 & Hrun & Hbak & Hframe).
    rewrite <- (loaded_agree fs fs' rest Hsame) in Hrun.
    assert (forall g, g ∈ rest -> load_fails fs' g = load_fails fs g)
      as Hfails.
    { intros g Hg. symmetry. apply load_fails_agree. apply Hsame, Hg. }
    assert (f <> String.append f ".bak") as Hfbak.
    { intros E. apply (extension_bak f). rewrite <- E. exact Hx. }
    exists fs1. split; [exact Hrun|]. split.
    + intros g Hg Hgf. apply elem_of_cons in Hg as [->|Hg].
      * split.
        -- rewrite Hframe.
           ++ unfold fs'. rewrite lookup_insert_ne by congruence.
              apply lookup_delete_eq.
           ++ intros Hin. done.
           ++ intros g Hg Hgfail ->.
              apply (extension_bak g). exact Hx.
        -- rewrite Hframe.
           ++ unfold fs'. rewrite lookup_insert_eq. congruence.
           ++ intros Hin. destruct (load_fails fs' _) eqn:E; [|done].
              apply load_fails_extension in E.
              destruct (extension_bak _ E).
           ++ intros g Hg Hgfail E. apply append_bak_inj in E.
              subst g. done.
      * assert (extension g = ".json") as Hgx
          by (eapply load_fails_extension; exact Hgf).
        rewrite <- Hfails in Hgf by exact Hg.
        destruct (Hbak g Hg Hgf) as [H1 H2]. split; [exact H1|].
        rewrite H2. symmetry. apply Hsame; assumption.
    + intros x Hx1 Hx2.
      assert (x <> f) as Hxf.
      { intros ->. rewrite Hx1 in Hfail by left. done. }
      assert (x <> String.append f ".bak") as Hxb.
      { apply Hx2; [left|exact Hfail]. }
      rewrite Hframe.
      * apply Hother; assumption.
      * intros Hin. rewrite Hfails by exact Hin. apply Hx1. right. exact Hin.
      * intros g Hg Hgf. apply Hx2; [right; exact Hg|].
        rewrite <- Hfails by exact Hg. exact Hgf.
  - (* std::stoi accepted the stem: no exception *)
    unfold loadNongsFromPath in Hload. rewrite Hid in Hload.
    cbn in Hload.
    destruct (id =? 0); [discriminate|].
    destruct (fs !! f); [|discriminate].
    destruct (json_parse _); [|discriminate].
    destruct (from_json _ _); discriminate.
  - unfold loadNongsFromPath in Hload. rewrite Hid in Hload.
    cbn in Hload.
    destruct (id =? 0); [discriminate|].
    destruct (fs !! f); [|discriminate].
    destruct (json_parse _); [|discriminate].
    destruct (from_json _ _); discriminate.
Qed.

End ScanSpec.

(** ** Saving one ID, and the migration on a manifest without null
    pointers *)

Section SaveAndMigrate.
Context `{NongsOps}.

Lemma saveNongs_loop_absent (id : Z) (l : list (Z * option Nongs))
    (fs : directory) :
  id ∉ l.*1 -> saveNongs_loop (Some id) l fs = Normal (Ok (), fs).
Proof.
  induction l as [|[k p] l IH]; intros Hid; [reflexivity|].
  cbn [saveNongs_loop]. rewrite fmap_cons, not_elem_of_cons in Hid.
  destruct Hid as [Hne Hid]. cbn [fst] in Hne.
  destruct (Z.eqb_spec id k) as [->|_]; [done|].
  cbn [negb]. apply IH, Hid.
Qed.

Lemma saveNongs_loop_single (id : Z) (p : option Nongs)
    (l : list (Z * option Nongs)) (fs : directory) :
  NoDup l.*1 -> (id, p) ∈ l ->
  saveNongs_loop (Some id) l fs
  = match p with
    | None => NullDeref
    | Some n => Normal (Nongs_commit n fs)
    end.
Proof.
  induction l as [|[k q] l IH]; intros Hnd Hin.
  { apply elem_of_nil in Hin. done. }
  rewrite fmap_cons in Hnd. apply NoDup_cons in Hnd as [Hk Hnd].
  cbn [fst] in Hk. cbn [saveNongs_loop].
  apply elem_of_cons in Hin as [E|Hin].
  - injection E as <- <-. rewrite Z.eqb_refl. cbn [negb].
    destruct p as [n|]; [|reflexivity].
    destruct (Nongs_commit n fs) as [[[]|e] fs'] eqn:Hc; [|reflexivity].
    apply saveNongs_loop_absent, Hk.
  - destruct (Z.eqb_spec id k) as [->|_].
    + exfalso. apply Hk. apply list_elem_of_fmap. exists (k, p). done.
    + cbn [negb]. apply IH; assumption.
Qed.

(** [saveNongs(id)] commits the aggregate stored under [id] and nothing
    else. *)
Lemma saveNongs_one (id : Z) (m : manifest) (fs : directory) :
  saveNongs (Some id) m fs
  = match m !! id with
    | None => Normal (Ok (), fs)
    | Some None => NullDeref
    | Some (Some n) => Normal (Nongs_commit n fs)
    end.
Proof.
  unfold saveNongs. destruct (m !! id) as [p|] eqn:E.
  - rewrite (saveNongs_loop_single id p).
    + destruct p; reflexivity.
    + apply NoDup_fst_map_to_list.
    + apply elem_of_map_to_list. exact E.
  - apply saveNongs_loop_absent.
    intros Hin. apply list_elem_of_fmap in Hin as ([k p] & -> & Hin).
    apply elem_of_map_to_list in Hin. cbn in E. congruence.
Qed.

Lemma no_null_insert (k : Z) (n : Nongs) (m : manifest) :
  no_null m -> no_null (<[k := Some n]> m).
Proof.
  intros Hm j. rewrite lookup_insert.
  destruct (decide (k = j)); [discriminate|apply Hm].
Qed.

(** On a manifest without null pointers the migration of the records
    runs to its end. *)
Lemma migrate_records_total (records : list (Z * CompatManifest)) :
  forall (m : manifest) (fs : directory),
  no_null m ->
  exists m' fs',
    migrate_records records m fs = Normal (m', fs') /\ no_null m'.
Proof.
  induction records as [|[id rec] rest IH]; intros m fs Hm.
  { exists m, fs. split; [reflexivity|exact Hm]. }
  cbn [migrate_records].
  set (m1 := if negb (contains m id)
             then map_insert id (create id (c_defaultSong rec)) m else m).
  assert (no_null m1) as Hm1.
  { unfold m1. destruct (negb _); [apply no_null_map_insert|]; exact Hm. }
  assert (is_Some (m1 !! id)) as [p Hp].
  { unfold m1. destruct (contains m id) eqn:E; cbn [negb].
    - apply contains_true in E. exact E.
    - apply contains_false in E. rewrite map_insert_lookup, E.
      rewrite decide_True by reflexivity. eauto. }
  unfold map_index. rewrite Hp.
  destruct p as [nongs|]; [|destruct (Hm1 id Hp)].
  apply IH, no_null_insert, Hm1.
Qed.

Lemma migrateV2_total (old : legacy) (m : manifest) (fs : directory) :
  no_null m ->
  exists r m' fs' b, migrateV2 old m fs = Normal (r, m', fs', b).
Proof.
  intros Hm. destruct old as [[records|e]|]; cbn [migrateV2]; eauto.
  destruct (migrate_records_total records m fs Hm) as (m' & fs' & -> & _).
  cbn. eauto.
Qed.

End SaveAndMigrate.

(** ** Startup: quarantine and duplicates *)

Section Startup.
Context `{Json} `{NongsOps}.

(** [init] on a manager that is not initialised is the scan followed by
    the migration on what the scan left. *)
Lemma init_scan_then_migrate (listing : list string) (old : legacy)
    (mgr : NongManager) (fs fs1 : directory) (m1 : manifest) :
  m_initialized mgr = false ->
  scanManifestDir listing fs (m_nongs mgr) = Normal (fs1, m1) ->
  init listing old mgr fs
  = ('(_, m2, fs2, backed_up) ← migrateV2 old m1 fs1;
     Normal (true, mkManager true m2, fs2, backed_up)).
Proof.
  intros Hinit Hscan. unfold init. rewrite Hinit, Hscan. reflexivity.
Qed.

Lemma init_scan_no_migration (listing : list string) (old : legacy)
    (mgr : NongManager) (fs fs1 : directory) (m1 : manifest) :
  m_initialized mgr = false ->
  scanManifestDir listing fs (m_nongs mgr) = Normal (fs1, m1) ->
  old = None \/ (exists e, old = Some (Err e)) ->
  init listing old mgr fs = Normal (true, mkManager true m1, fs1, false).
Proof.
  intros Hinit Hscan Hold.
  rewrite (init_scan_then_migrate listing old mgr fs fs1 m1 Hinit Hscan).
  destruct Hold as [->|[e ->]]; reflexivity.
Qed.

(** X27: startup on a manager that is not initialised and has no null
    pointer, with a directory listing without repetition of existing
    files whose [.json] stems [std::stoi] accepts. [init] returns [true];
    what it returns is the result of the V2 migration run on the manifest
    and the directory the scan leaves, and these themselves when there is
    no legacy manifest or it does not parse. The scan leaves the manifest
    with the aggregates of the files that load, inserted in order, and
    none for a file whose load returns an error; it leaves every such
    file under its name followed by [.bak], with its content, and every
    other name of the directory as it was. *)
Theorem init_quarantines_failed_files (listing : list string)
    (old : legacy) (mgr : NongManager) (fs : directory) :
  m_initialized mgr = false ->
  no_null (m_nongs mgr) ->
  NoDup listing ->
  Forall (fun f => is_Some (fs !! f)) listing ->
  Forall numbered listing ->
  let m1 := insert_all (loaded fs listing) (m_nongs mgr) in
  exists fs1 mgr' fs' backed_up,
    init listing old mgr fs = Normal (true, mgr', fs', backed_up)
    /\ init listing old mgr fs
       = ('(_, m2, fs2, b) ← migrateV2 old m1 fs1;
          Normal (true, mkManager true m2, fs2, b))
    /\ (old = None \/ (exists e, old = Some (Err e)) ->
        mgr' = mkManager true m1 /\ fs' = fs1 /\ backed_up = false)
    /\ (forall f, f ∈ listing -> load_fails fs f = true ->
          loads_ok fs f = None
          /\ fs1 !! f = None
          /\ fs1 !! String.append f ".bak" = fs !! f)
    /\ (forall x,
          (x ∈ listing -> load_fails fs x = false) ->
          (forall g, g ∈ listing -> load_fails fs g = true ->
             x <> String.append g ".bak") ->
          fs1 !! x = fs !! x).
Proof.
  intros Hinit Hnull Hnd Hex Hnum m1.
  destruct (scanManifestDir_spec listing fs (m_nongs mgr) Hnd Hex Hnum)
    as (fs1 & Hrun & Hbak & Hframe).
  fold m1 in Hrun.
  destruct (migrateV2_total old m1 fs1 (no_null_insert_all _ _ Hnull))
    as (r & m' & fs' & b & Hmig).
  pose proof (init_scan_then_migrate listing old mgr fs fs1 m1 Hinit Hrun)
    as Heq.
  exists fs1, (mkManager true m'), fs', b.
  split; [rewrite Heq, Hmig; reflexivity|].
  split; [exact Heq|]. split; [|split].
  - intros Hold.
    pose proof (init_scan_no_migration listing old mgr fs fs1 m1 Hinit Hrun
                  Hold) as Hno.
    rewrite Heq, Hmig in Hno. cbn in Hno. injection Hno as -> -> ->. done.
  - intros f Hf Hfail. split; [apply load_fails_not_ok; exact Hfail|].
    apply Hbak; assumption.
  - exact Hframe.
Qed.

(** C4, as the code has it: at startup, with a directory listing without
    repetition of existing files whose [.json] stems [std::stoi] accepts,
    the scan binds a song ID that is not yet in the manifest to the
    aggregate of the first file of the listing that loads with that ID,
    and it does not quarantine a file that loads, a later one with the
    same ID included: when the scan ends the file is in the directory
    under its own name and with its content, and no [.bak] copy of it has
    been made. [init] then runs the V2 migration on this manifest and
    this directory, and returns with them as they are when there is no
    legacy manifest or it does not parse. *)
Theorem init_keeps_first_and_leaves_duplicates (listing : list string)
    (old : legacy) (mgr : NongManager) (fs : directory) :
  m_initialized mgr = false ->
  NoDup listing ->
  Forall (fun f => is_Some (fs !! f)) listing ->
  Forall numbered listing ->
  exists fs1 m1,
    init listing old mgr fs
    = ('(_, m2, fs2, b) ← migrateV2 old m1 fs1;
       Normal (true, mkManager true m2, fs2, b))
    /\ (old = None \/ (exists e, old = Some (Err e)) ->
        init listing old mgr fs
        = Normal (true, mkManager true m1, fs1, false))
    /\ (forall k p, m_nongs mgr !! k = Some p -> m1 !! k = Some p)
    /\ (forall k, m_nongs mgr !! k = None ->
          m1 !! k
          = option_map Some
              (List.find (fun n => bool_decide (songID n = k))
                         (loaded fs listing)))
    /\ (forall f n, f ∈ listing -> loads_ok fs f = Some n ->
          fs1 !! f = fs !! f
          /\ fs1 !! String.append f ".bak" = fs !! String.append f ".bak").
Proof.
  intros Hinit Hnd Hex Hnum.
  destruct (scanManifestDir_spec listing fs (m_nongs mgr) Hnd Hex Hnum)
    as (fs1 & Hrun & _ & Hframe).
  exists fs1, (insert_all (loaded fs listing) (m_nongs mgr)).
  split; [exact (init_scan_then_migrate _ old _ _ _ _ Hinit Hrun)|].
  split; [exact (init_scan_no_migration _ old _ _ _ _ Hinit Hrun)|].
  split; [|split].
  - intros k p Hk. rewrite insert_all_lookup, Hk. reflexivity.
  - intros k Hk. rewrite insert_all_lookup, Hk. reflexivity.
  - intros f n Hf Hok.
    assert (extension f = ".json") as Hx.
    { unfold loads_ok in Hok. case_bool_decide; [assumption|discriminate]. }
    split; apply Hframe.
    + intros _. eapply loads_ok_not_fails. exact Hok.
    + intros g Hg Hgf ->. apply (extension_bak g). exact Hx.
    + intros Hin. destruct (load_fails fs _) eqn:E; [|reflexivity].
      apply load_fails_extension in E. destruct (extension_bak _ E).
    + intros g Hg Hgf E. apply append_bak_inj in E. subst g.
      rewrite (loads_ok_not_fails _ _ _ Hok) in Hgf. discriminate.
Qed.

Lemma scanManifestDir_quarantine (f c : string) (rest : list string)
    (fs : directory) (m : manifest) :
  load_fails fs f = true -> fs !! f = Some c ->
  scanManifestDir (f :: rest) fs m
  = scanManifestDir rest (<[String.append f ".bak" := c]> (delete f fs)) m.
Proof.
  intros Hfail Hc. pose proof (load_fails_extension _ _ Hfail) as Hx.
  cbn [scanManifestDir]. rewrite bool_decide_eq_true_2 by exact Hx.
  cbn [negb]. unfold load_fails in Hfail.
  rewrite bool_decide_eq_true_2 in Hfail by exact Hx.
  destruct (loadNongsFromPath fs f) as [[n|e]| |]; try discriminate Hfail.
  cbn [mbind outcome_bind]. unfold rename. rewrite Hc. reflexivity.
Qed.

(** C7, on an input it fails on: the manifest directory holds [0.json]
    and [abc.json]. The load of [0.json] returns an error and the file
    can be renamed, but [init] does not return [true]: whichever of the
    two files the iterator yields first, [std::stoi] throws
    [std::invalid_argument] on the stem of [abc.json] and [init] is left
    by that exception. *)
Theorem init_throws_beside_failed_file (c0 c1 : string)
    (rest : list string) (old : legacy) (m : manifest) (fs0 : directory) :
  let fs := <["0.json" := c0]> (<["abc.json" := c1]> fs0) in
  load_fails fs "0.json" = true
  /\ (exists fs', rename "0.json" "0.json.bak" fs = Normal fs')
  /\ init ("0.json" :: "abc.json" :: rest) old (mkManager false m) fs
     = Throws invalid_argument
  /\ init ("abc.json" :: "0.json" :: rest) old (mkManager false m) fs
     = Throws invalid_argument.
Proof.
  cbn zeta.
  assert (load_fails (<["0.json" := c0]> (<["abc.json" := c1]> fs0))
            "0.json" = true) as Hfail.
  { apply load_fails_zero_stem; reflexivity. }
  split; [exact Hfail|]. split; [|split].
  - unfold rename. rewrite lookup_insert_eq. eauto.
  - unfold init. cbn [m_initialized m_nongs].
    rewrite (scanManifestDir_quarantine "0.json" c0)
      by (try exact Hfail; apply lookup_insert_eq).
    rewrite (scanManifestDir_stoi_throws "abc.json" invalid_argument)
      by reflexivity.
    reflexivity.
  - unfold init. cbn [m_initialized m_nongs].
    rewrite (scanManifestDir_stoi_throws "abc.json" invalid_argument)
      by reflexivity.
    reflexivity.
Qed.

End Startup.

(** ** The song-info listener *)

Section EventBridge.
Context `{NongsOps}.

(** X28: the handler of a SongInfoFetched event with song ID [g], name
    [n] and artist [a], on a manifest in which [g] is either not a key or
    is bound to an aggregate (not to a null pointer). When [g] is not a
    key it stops the propagation and changes nothing; when the default
    entry of the aggregate already has that name and that artist it stops
    the propagation and changes nothing; otherwise it sets the default
    entry's name to [n] and its artist to [a], commits the aggregate of
    [g] (and no other) and lets the event propagate. *)
Theorem songInfoListener_cases (g : Z) (n a : string) (m : manifest)
    (fs : directory) :
  (m !! g = None -> songInfoListener g n a m fs = Normal (Stop, m, fs))
  /\ (forall nongs, m !! g = Some (Some nongs) ->
        name (l_metadata (defaultSong nongs)) = n ->
        artist (l_metadata (defaultSong nongs)) = a ->
        songInfoListener g n a m fs = Normal (Stop, m, fs))
  /\ (forall nongs, m !! g = Some (Some nongs) ->
        ~ (name (l_metadata (defaultSong nongs)) = n
           /\ artist (l_metadata (defaultSong nongs)) = a) ->
        let nongs' := set_default_name_artist n a nongs in
        name (l_metadata (defaultSong nongs')) = n
        /\ artist (l_metadata (defaultSong nongs')) = a
        /\ songInfoListener g n a m fs
           = Normal (Propagate, <[g := Some nongs']> m,
                     snd (Nongs_commit nongs' fs))).
Proof.
  unfold songInfoListener. rewrite getNongs_lookup.
  split; [|split].
  - intros ->. reflexivity.
  - intros nongs -> <- <-.
    rewrite !bool_decide_eq_true_2 by reflexivity. reflexivity.
  - intros nongs -> Hne. cbn zeta.
    split; [reflexivity|]. split; [reflexivity|].
    assert (bool_decide (n = name (l_metadata (defaultSong nongs)))
            && bool_decide (a = artist (l_metadata (defaultSong nongs)))
            = false) as ->.
    { apply andb_false_iff.
      destruct (decide (n = name (l_metadata (defaultSong nongs))))
        as [En|En].
      - right. apply bool_decide_eq_false. intros Ea. apply Hne. done.
      - left. apply bool_decide_eq_false. exact En. }
    rewrite saveNongs_one, lookup_insert_eq.
    cbn [mbind outcome_bind].
    destruct (Nongs_commit _ fs) as [r fs']. reflexivity.
Qed.

End EventBridge.

(** ** The mutation entry points *)

Section FacadeSpec.
Context `{NongsOps}.

Ltac entry_point method :=
  intros m fs; split;
  [ intros Hm; rewrite ?getNongs_lookup, ?Hm; reflexivity
  | intros nongs Hm _; rewrite getNongs_lookup, Hm;
    destruct (method nongs) as [[[]|e] nongs']; [|reflexivity];
    rewrite saveNongs_one, lookup_insert_eq;
    cbn [mbind outcome_bind];
    destruct (Nongs_commit nongs' fs) as [r fs']; reflexivity ].

Lemma setActiveSong_contract (id : Z) (uid : string) :
  guarded_delegate id (Nongs_setActive uid) (fun e => e) (fun _ => True)
                   (setActiveSong id uid).
Proof.
  unfold guarded_delegate, setActiveSong.
  entry_point (Nongs_setActive uid).
Qed.

Lemma deleteAllSongs_contract (id : Z) :
  guarded_delegate id Nongs_deleteAllSongs (fun e => e) (fun _ => True)
                   (deleteAllSongs id).
Proof.
  unfold guarded_delegate, deleteAllSongs.
  entry_point Nongs_deleteAllSongs.
Qed.

Lemma deleteSongAudio_contract (id : Z) (uid : string) :
  guarded_delegate id (Nongs_deleteSongAudio uid) couldnt_delete
                   (fun _ => True) (deleteSongAudio id uid).
Proof.
  unfold guarded_delegate, deleteSongAudio.
  entry_point (Nongs_deleteSongAudio uid).
Qed.

Lemma deleteSong_contract (id : Z) (uid : string) :
  guarded_delegate id (Nongs_deleteSong uid) couldnt_delete
                   (fun _ => True) (deleteSong id uid).
Proof.
  unfold guarded_delegate, deleteSong. intros m fs. split.
  - intros Hm. rewrite getNongs_lookup, Hm. reflexivity.
  - intros nongs Hm _. rewrite getNongs_lookup, Hm. reflexivity.
Qed.

(** [addNongs] saves the ID it reads from the stored aggregate after the
    merge; this is the affected ID when the merge leaves the song ID of
    the stored aggregate equal to its key. *)
Lemma addNongs_contract (other : Nongs) :
  guarded_delegate (songID other) (Nongs_merge other) (fun e => e)
    (fun stored => songID (snd (Nongs_merge other stored)) = songID other)
    (addNongs other).
Proof.
  unfold guarded_delegate, addNongs. intros m fs. split.
  - intros Hm.
    assert (contains m (songID other) = false) as ->
      by (apply contains_false; exact Hm).
    reflexivity.
  - intros stored Hm Hid.
    assert (contains m (songID other) = true) as ->
      by (apply contains_true; eauto).
    cbn [negb]. unfold map_index. rewrite Hm. cbn [snd].
    destruct (Nongs_merge other stored) as [[[]|e] stored'];
      [|reflexivity].
    cbn [snd] in Hid. rewrite Hid, saveNongs_one, lookup_insert_eq.
    cbn [mbind outcome_bind].
    destruct (Nongs_commit stored' fs) as [r fs']. reflexivity.
Qed.

(** X29: each of [addNongs], [setActiveSong], [deleteSong],
    [deleteSongAudio] and [deleteAllSongs], on a manifest in which the ID
    is either not a key or is bound to an aggregate (not to a null
    pointer). When the ID is not a key, the entry point returns the error
    "Song not initialized in manifest" and leaves the manifest and the
    directory as they are; when it is bound to an aggregate, the entry
    point hands the work to the aggregate's method and, if the method
    succeeds, commits the aggregate of that ID and no other; if the
    method fails its error is returned and nothing is committed. For
    [addNongs] the ID is the song ID of its argument, which the stored
    aggregate is assumed to keep through the merge. *)
Theorem entry_points_guard_delegate_commit (id : Z) (uid : string)
    (other : Nongs) :
  guarded_delegate (songID other) (Nongs_merge other) (fun e => e)
    (fun stored => songID (snd (Nongs_merge other stored)) = songID other)
    (addNongs other)
  /\ guarded_delegate id (Nongs_setActive uid) (fun e => e)
       (fun _ => True) (setActiveSong id uid)
  /\ guarded_delegate id (Nongs_deleteSong uid) couldnt_delete
       (fun _ => True) (deleteSong id uid)
  /\ guarded_delegate id (Nongs_deleteSongAudio uid) couldnt_delete
       (fun _ => True) (deleteSongAudio id uid)
  /\ guarded_delegate id Nongs_deleteAllSongs (fun e => e)
       (fun _ => True) (deleteAllSongs id).
Proof.
  split; [apply addNongs_contract|].
  split; [apply setActiveSong_contract|].
  split; [apply deleteSong_contract|].
  split; [apply deleteSongAudio_contract|].
  apply deleteAllSongs_contract.
Qed.

End FacadeSpec.

(** ** Sizes *)

Section SizesSpec.
Context `{Host} `{FloatOps}.

(** A text that ends in "MB" is not the text "N/A". *)
Lemma megabytes_text_not_NA (x : float) : megabytes_text x <> "N/A".
Proof.
  unfold megabytes_text.
  destruct (put_precision3 (to_megabytes x)) as [|c1 [|c2 [|c3 [|c4 s]]]];
    cbn; intros E; inversion E.
Qed.

(** C8, as the code has it: for a path whose file size cannot be read,
    [getFormattedSize] returns the text "N/A", which is not the text of
    any megabyte total. *)
Theorem getFormattedSize_unreadable (fs : sizes) (path : string) :
  fs !! path = None ->
  getFormattedSize fs path = "N/A"
  /\ forall total : float, getFormattedSize fs path <> megabytes_text total.
Proof.
  intros Hp. unfold getFormattedSize. rewrite Hp.
  split; [reflexivity|].
  intros total E. symmetry in E. exact (megabytes_text_not_NA total E).
Qed.

(** One iteration on a token that is resolvable either goes through, and
    then the active entry of the aggregate (if there is one) has a path,
    or fails on the empty optional. *)
Lemma song_step_resolvable (m : manifest) (fs : sizes) (s : string)
    (sum : float) :
  resolvable m s ->
  (active_has_path m s /\ exists sum', song_step m fs s sum = Normal sum')
  \/ (~ active_has_path m s
      /\ song_step m fs s sum = Throws bad_optional_access).
Proof.
  intros (id & Hid & Hm). unfold song_step. rewrite Hid.
  cbn [mbind outcome_bind]. rewrite getNongs_lookup.
  destruct Hm as [Hm|(n & e & Hm & Ha)].
  - left. rewrite Hm. split; [|eauto].
    intros id' n' Hid' Hn'. congruence.
  - rewrite Hm, Ha. destruct (Nong.path e) as [p|] eqn:Hp.
    + left. split; [|eauto].
      intros id' n' Hid' Hn'. exists e, p.
      assert (id' = id) as -> by congruence.
      assert (n' = n) as -> by congruence. done.
    + right. split; [|reflexivity].
      intros Hall. destruct (Hall id n Hid Hm) as (e' & p & He' & Hp').
      congruence.
Qed.

Lemma song_loop_resolvable (m : manifest) (fs : sizes)
    (tokens : list string) :
  forall sum : float,
  Forall (resolvable m) tokens ->
  (Forall (active_has_path m) tokens
   /\ exists sum', song_loop m fs tokens sum = Normal sum')
  \/ (~ Forall (active_has_path m) tokens
      /\ song_loop m fs tokens sum = Throws bad_optional_access).
Proof.
  induction tokens as [|s rest IH]; intros sum Hres.
  { left. split; [constructor|]. cbn. eauto. }
  apply Forall_cons in Hres as [Hs Hrest]. cbn [song_loop].
  destruct (song_step_resolvable m fs s sum Hs)
    as [[Hp (sum' & ->)]|[Hnp ->]].
  - cbn [mbind outcome_bind].
    destruct (IH sum' Hrest) as [[Hall Hrun]|[Hnall Hrun]].
    + left. split; [constructor; assumption|exact Hrun].
    + right. split; [|exact Hrun].
      intros Hall. apply Forall_cons in Hall as [_ Hall]. done.
  - right. split; [|reflexivity].
    intros Hall. apply Forall_cons in Hall as [Hall _]. done.
Qed.

(** C10: the loop over the song IDs of [getMultiAssetSizes] takes
    [path().value()] of the active entry of every aggregate it finds,
    with no test in between. For song tokens that are numbers and
    aggregates that have an active entry, the computation returns a text
    exactly when the active entry of each aggregate found has a path;
    when one of them has none it ends in [std::bad_optional_access]. *)
Theorem getMultiAssetSizes_total_iff_paths (m : manifest) (fs : sizes)
    (songs sfx : string) :
  Forall (resolvable m) (getline_tokens songs) ->
  (forall s id n e sum, stoi s = Normal id -> m !! id = Some (Some n) ->
     Nong.active n = Some e -> Nong.path e = None ->
     song_step m fs s sum = Throws bad_optional_access)
  /\ ((exists text, getMultiAssetSizes m fs songs sfx = Normal text)
      <-> Forall (active_has_path m) (getline_tokens songs))
  /\ (~ Forall (active_has_path m) (getline_tokens songs) ->
      getMultiAssetSizes m fs songs sfx = Throws bad_optional_access).
Proof.
  intros Hres. split; [|split].
  - intros s id n e sum Hid Hm Ha Hp. unfold song_step.
    rewrite Hid. cbn [mbind outcome_bind].
    rewrite getNongs_lookup, Hm, Ha, Hp. reflexivity.
  - unfold getMultiAssetSizes.
    destruct (song_loop_resolvable m fs _ float_zero Hres)
      as [[Hall (sum' & ->)]|[Hnall ->]].
    + cbn [mbind outcome_bind]. split; [intros _; exact Hall|eauto].
    + cbn [mbind outcome_bind]. split; [intros [text E]; discriminate E|].
      intros Hall. done.
  - intros Hnall. unfold getMultiAssetSizes.
    destruct (song_loop_resolvable m fs _ float_zero Hres)
      as [[Hall _]|[_ ->]]; [done|reflexivity].
Qed.

End SizesSpec.

(** * The properties on concrete inputs *)

Section Instances.

Import Examples.

#[local] Existing Instances SpecModel.ops SpecModel.text_json
  SpecModel.quiet_host SpecModel.exact_floats.

Ltac by_computation := apply (bool_decide_unpack _); vm_compute; exact I.
Ltac each_element tac :=
  repeat (apply Forall_cons_2; [tac|]); apply Forall_nil_2.
Ltac file_exists := vm_compute; eexists; reflexivity.
Ltac stem_numbered :=
  intros Hx; first [vm_compute; reflexivity | vm_compute in Hx; discriminate Hx].

(** [0.json] and [7.json] are quarantined, [8.json] is loaded and [init]
    returns [true] with the manifest and the directory of the scan. *)
Lemma init_quarantines_failed_files_witness :
  let m1 := insert_all (loaded quarantine_dir quarantine_listing) ∅ in
  exists fs1 mgr' fs' backed_up,
    init quarantine_listing None (mkManager false ∅) quarantine_dir
    = Normal (true, mgr', fs', backed_up)
    /\ init quarantine_listing None (mkManager false ∅) quarantine_dir
       = ('(_, m2, fs2, b) ← migrateV2 None m1 fs1;
          Normal (true, mkManager true m2, fs2, b))
    /\ ((None : legacy) = None \/ (exists e, (None : legacy) = Some (Err e)) ->
        mgr' = mkManager true m1 /\ fs' = fs1 /\ backed_up = false)
    /\ (forall f, f ∈ quarantine_listing ->
          load_fails quarantine_dir f = true ->
          loads_ok quarantine_dir f = None
          /\ fs1 !! f = None
          /\ fs1 !! String.append f ".bak" = quarantine_dir !! f)
    /\ (forall x,
          (x ∈ quarantine_listing -> load_fails quarantine_dir x = false) ->
          (forall g, g ∈ quarantine_listing ->
             load_fails quarantine_dir g = true ->
             x <> String.append g ".bak") ->
          fs1 !! x = quarantine_dir !! x).
Proof.
  apply (@init_quarantines_failed_files SpecModel.text_json SpecModel.ops
           quarantine_listing None (mkManager false ∅) quarantine_dir).
  - reflexivity.
  - intros k. cbn [m_nongs]. rewrite lookup_empty. discriminate.
  - by_computation.
  - each_element file_exists.
  - each_element stem_numbered.
Defined.

Example quarantine_run :
  match init quarantine_listing None (mkManager false ∅) quarantine_dir with
  | Normal (r, mgr', fs', _) =>
      r = true
      /\ load_fails quarantine_dir "0.json" = true
      /\ load_fails quarantine_dir "7.json" = true
      /\ dom (m_nongs mgr') = {[ 8 ]}
      /\ dom fs' = {[ "0.json.bak"; "7.json.bak"; "8.json"; "notes.txt" ]}
  | _ => False
  end.
Proof. vm_compute. repeat split; reflexivity. Qed.

(** Both [7.json] and [07.json] load to song 7; after [init] the manifest
    holds the aggregate of the first one, and the second file is still
    there under its name: it was not renamed. *)
Lemma later_duplicate_is_not_quarantined :
  match init dup_listing None (mkManager false ∅) dup_dir with
  | Normal (r, mgr', fs', _) =>
      r = true
      /\ (exists n1 n2,
            loads_ok dup_dir "7.json" = Some n1
            /\ loads_ok dup_dir "07.json" = Some n2
            /\ songID n1 = 7 /\ songID n2 = 7
            /\ m_nongs mgr' !! 7 = Some (Some n1))
      /\ fs' !! "07.json" = Some "second"
      /\ fs' !! "07.json.bak" = None
  | _ => False
  end.
Proof.
  vm_compute. split; [reflexivity|]. split; [|split; reflexivity].
  eexists _, _. repeat split; reflexivity.
Qed.

Lemma init_keeps_first_and_leaves_duplicates_witness :
  exists fs1 m1,
    init dup_listing None (mkManager false ∅) dup_dir
    = ('(_, m2, fs2, b) ← migrateV2 None m1 fs1;
       Normal (true, mkManager true m2, fs2, b))
    /\ ((None : legacy) = None \/ (exists e, (None : legacy) = Some (Err e)) ->
        init dup_listing None (mkManager false ∅) dup_dir
        = Normal (true, mkManager true m1, fs1, false))
    /\ (forall k p, (∅ : manifest) !! k = Some p -> m1 !! k = Some p)
    /\ (forall k, (∅ : manifest) !! k = None ->
          m1 !! k
          = option_map Some
              (List.find (fun n => bool_decide (songID n = k))
                         (loaded dup_dir dup_listing)))
    /\ (forall f n, f ∈ dup_listing ->
          loads_ok dup_dir f = Some n ->
          fs1 !! f = dup_dir !! f
          /\ fs1 !! String.append f ".bak"
             = dup_dir !! String.append f ".bak").
Proof.
  apply (@init_keeps_first_and_leaves_duplicates SpecModel.text_json
           SpecModel.ops dup_listing None (mkManager false ∅) dup_dir).
  - reflexivity.
  - by_computation.
  - each_element file_exists.
  - each_element stem_numbered.
Defined.

(** With a legacy record for song 7, the migration that follows the scan
    commits the aggregate of song 7 to [7.json]: the later duplicate,
    which the scan left as it was, is then overwritten. *)
Example migration_overwrites_later_duplicate :
  let d := mkLocal (mkMetadata 7 "default" "legacy" "" 0 None) "" in
  match init ["07.json"; "7.json"] (Some (Ok [(7, mkCompat d [] d)]))
             (mkManager false ∅) dup_dir with
  | Normal (r, mgr', fs', backed_up) =>
      r = true /\ backed_up = true
      /\ dup_dir !! "7.json" = Some "first"
      /\ fs' !! "7.json" = Some "7;default;second;"
      /\ fs' !! "07.json" = Some "second"
  | _ => False
  end.
Proof. vm_compute. repeat split; reflexivity. Qed.

(** The listener on song 7, which has no aggregate; on song 42 with the
    name and artist its default already has; and on song 42 with new
    ones. *)
Lemma songInfoListener_cases_witness :
  songInfoListener 7 "New" "Artist" manifest42 ∅
  = Normal (Stop, manifest42, ∅)
  /\ songInfoListener 42 "Old" "Someone" manifest42 ∅
     = Normal (Stop, manifest42, ∅)
  /\ songInfoListener 42 "New" "Artist" manifest42 ∅
     = Normal (Propagate,
               <[42 := Some (set_default_name_artist "New" "Artist" agg42)]>
                 manifest42,
               snd (Nongs_commit
                      (set_default_name_artist "New" "Artist" agg42) ∅)).
Proof.
  split; [|split].
  - apply (proj1 (songInfoListener_cases 7 "New" "Artist" manifest42 ∅)).
    reflexivity.
  - apply (proj1 (proj2 (songInfoListener_cases 42 "Old" "Someone"
                           manifest42 ∅)) agg42); reflexivity.
  - apply (proj2 (proj2 (songInfoListener_cases 42 "New" "Artist"
                           manifest42 ∅)) agg42).
    + reflexivity.
    + intros [E _]. discriminate E.
Defined.

Example songInfoListener_run :
  match songInfoListener 42 "New" "Artist" manifest42 ∅ with
  | Normal (r, m', fs') =>
      r = Propagate
      /\ m' !! 42
         = Some (Some (mkNongs 42
             (mkLocal (mkMetadata 42 "D" "New" "Artist" 0 None) "songs/42.mp3")
             (locals agg42) [] [] "D"))
      /\ fs' !! "42.json" = Some "42;D;New;Artist"
  | _ => False
  end.
Proof. vm_compute. repeat split; reflexivity. Qed.

(** The five entry points on song 7, which has no aggregate, and on song
    42, which has one. *)
Lemma entry_points_guard_delegate_commit_witness :
  (addNongs (create 7 (createUnknown 7 "u")) manifest42 ∅
   = Normal (Err not_initialized, manifest42, ∅)
   /\ setActiveSong 7 "L1" manifest42 ∅
      = Normal (Err not_initialized, manifest42, ∅)
   /\ deleteSong 7 "L1" manifest42 ∅
      = Normal (Err not_initialized, manifest42, ∅)
   /\ deleteSongAudio 7 "L1" manifest42 ∅
      = Normal (Err not_initialized, manifest42, ∅)
   /\ deleteAllSongs 7 manifest42 ∅
      = Normal (Err not_initialized, manifest42, ∅))
  /\ (addNongs incoming42 manifest42 ∅
      = Normal (Ok (),
                <[42 := Some (snd (SpecModel.merge incoming42 agg42))]>
                  manifest42,
                {[ "42.json" := "42;D;Old;Someone" ]})
      /\ setActiveSong 42 "L1" manifest42 ∅
         = Normal (Ok (),
                   <[42 := Some (SpecModel.with_active "L1" agg42)]>
                     manifest42,
                   {[ "42.json" := "42;L1;Old;Someone" ]})
      /\ deleteSong 42 "D" manifest42 ∅
         = Normal (Err "Couldn't delete Nong: Cannot delete default song",
                   <[42 := Some agg42]> manifest42, ∅)
      /\ deleteSongAudio 42 "L1" manifest42 ∅
         = Normal (Ok (),
                   <[42 := Some (snd (SpecModel.deleteSongAudio "L1" agg42))]>
                     manifest42,
                   {[ "42.json" := "42;D;Old;Someone" ]})
      /\ deleteAllSongs 42 manifest42 ∅
         = Normal (Ok (),
                   <[42 := Some (snd (SpecModel.deleteAllSongs agg42))]>
                     manifest42,
                   {[ "42.json" := "42;D;Old;Someone" ]})).
Proof.
  destruct (entry_points_guard_delegate_commit 7 "L1"
              (create 7 (createUnknown 7 "u")))
    as (Hadd7 & Hset7 & Hdel7 & Haud7 & Hall7).
  destruct (entry_points_guard_delegate_commit 42 "L1" incoming42)
    as (Hadd & Hset & _ & Haud & Hall).
  destruct (entry_points_guard_delegate_commit 42 "D" incoming42)
    as (_ & _ & Hdel & _ & _).
  split.
  - split; [apply (proj1 (Hadd7 manifest42 ∅)); reflexivity|].
    split; [apply (proj1 (Hset7 manifest42 ∅)); reflexivity|].
    split; [apply (proj1 (Hdel7 manifest42 ∅)); reflexivity|].
    split; [apply (proj1 (Haud7 manifest42 ∅)); reflexivity|].
    apply (proj1 (Hall7 manifest42 ∅)); reflexivity.
  - split; [exact (proj2 (Hadd manifest42 ∅) agg42 eq_refl eq_refl)|].
    split; [exact (proj2 (Hset manifest42 ∅) agg42 eq_refl I)|].
    split; [exact (proj2 (Hdel manifest42 ∅) agg42 eq_refl I)|].
    split; [exact (proj2 (Haud manifest42 ∅) agg42 eq_refl I)|].
    exact (proj2 (Hall manifest42 ∅) agg42 eq_refl I).
Defined.

(** The size of a file that does not exist. *)
Lemma getFormattedSize_unreadable_witness :
  getFormattedSize audio_files "/nongs/missing.mp3" = "N/A"
  /\ forall total : float,
       getFormattedSize audio_files "/nongs/missing.mp3"
       <> megabytes_text total.
Proof.
  apply (@getFormattedSize_unreadable SpecModel.exact_floats audio_files
           "/nongs/missing.mp3").
  reflexivity.
Defined.

(** The size of [/nongs/missing.mp3] cannot be read; the text returned is
    not the text of a total of zero bytes. *)
Lemma getFormattedSize_missing_is_not_zero_total :
  audio_files !! "/nongs/missing.mp3" = None
  /\ megabytes_text (float_of_size 0) = "0MB"
  /\ getFormattedSize audio_files "/nongs/missing.mp3"
     <> megabytes_text (float_of_size 0).
Proof.
  split; [reflexivity|]. split; [reflexivity|].
  vm_compute. discriminate.
Qed.

Lemma resolvable12 (s : string) (id : Z) (n : Nongs) (e : Song) :
  stoi s = Normal id -> manifest12 !! id = Some (Some n) ->
  Nong.active n = Some e -> resolvable manifest12 s.
Proof.
  intros Hid Hm Ha. exists id. split; [exact Hid|]. right. eauto.
Defined.

(** Asking for song 1 returns a text; asking for songs 1 and 2 fails on
    the active Youtube entry of song 2. *)
Lemma getMultiAssetSizes_total_iff_paths_witness :
  (exists text, getMultiAssetSizes manifest12 audio_files "1" "" = Normal text)
  /\ getMultiAssetSizes manifest12 audio_files "1,2" ""
     = Throws bad_optional_access.
Proof.
  assert (resolvable manifest12 "1") as H1.
  { apply (resolvable12 "1" 1 agg1 (SLocal (defaultSong agg1)));
      reflexivity. }
  assert (resolvable manifest12 "2") as H2.
  { apply (resolvable12 "2" 2 agg2
             (SYoutube (mkYT (mkMetadata 2 "Y2" "Two (live)" "B" 0 None)
                             "https://yt/2")));
      reflexivity. }
  split.
  - apply (proj1 (proj2 (getMultiAssetSizes_total_iff_paths manifest12
                           audio_files "1" ""
                           (Forall_cons_2 _ _ _ H1 (Forall_nil_2 _))))).
    apply Forall_cons_2; [|apply Forall_nil_2].
    intros id n Hid Hm. vm_compute in Hid. injection Hid as <-.
    vm_compute in Hm. injection Hm as <-.
    eexists _, _. split; reflexivity.
  - apply (proj2 (proj2 (getMultiAssetSizes_total_iff_paths manifest12
                           audio_files "1,2" ""
                           (Forall_cons_2 _ _ _ H1
                              (Forall_cons_2 _ _ _ H2 (Forall_nil_2 _)))))).
    intros Hall. apply Forall_cons in Hall as [_ Hall].
    apply Forall_cons in Hall as [Hp _].
    destruct (Hp 2 agg2 eq_refl eq_refl) as (e & p & He & Hpath).
    vm_compute in He. injection He as <-. discriminate Hpath.
Defined.

Example getMultiAssetSizes_run :
  getMultiAssetSizes manifest12 audio_files "1" "" = Normal "3MB"
  /\ getMultiAssetSizes manifest12 audio_files "9,1," "4" = Normal "3MB"
  /\ getMultiAssetSizes manifest12 audio_files "2,1" ""
     = Throws bad_optional_access
  /\ getMultiAssetSizes manifest12 audio_files "x" ""
     = Throws invalid_argument.
Proof. vm_compute. repeat split; reflexivity. Qed.

(** A whole migration: the legacy record of song 42 lists the default, a
    song with the name, artist and start offset of the stored [L1], and a
    song that differs from [L1] in its start offset only. Neither is
    added. *)
Example migrateV2_run :
  let d := defaultSong agg42 in
  let same := mkLocal (mkMetadata 42 "M1" "Remix" "Other" 0 None) "/old/a.mp3" in
  let later :=
    mkLocal (mkMetadata 42 "M2" "Remix" "Other" 5000 None) "/old/b.mp3" in
  let fresh := mkLocal (mkMetadata 42 "M3" "Cover" "Other" 0 None) "/old/c.mp3" in
  match migrateV2 (Some (Ok [(42, mkCompat d [d; same; later; fresh] fresh)]))
                  manifest42 ∅ with
  | Normal (r, m', fs', backed_up) =>
      r = Ok () /\ backed_up = true
      /\ m' !! 42
         = Some (Some (mkNongs 42 d (locals agg42 ++ [fresh])%list [] [] "M3"))
      /\ fs' !! "42.json" = Some "42;M3;Old;Someone"
  | _ => False
  end.
Proof. vm_compute. repeat split; reflexivity. Qed.

(** A built-in song whose aggregate was loaded from [-1.json]: the call
    for the ID 0 adds a null binding for 0 and registers a null pointer;
    the call for the derived key itself changes nothing. *)
Example initSongID_run :
  let A := create (-1) (mkLocal (mkMetadata (-1) "D" "Stereo" "F" 0 None) "") in
  let m : manifest := {[ -1 := Some A ]} in
  let o := mkSongInfo "Stereo" "F" in
  let h := mkHostLog 0 [] [] in
  initSongID (Some o) 0 true m h
  = (<[0 := None]> m, mkHostLog 1 [] [nullptr])
  /\ initSongID (Some o) (-1) true m h = (m, h).
Proof. vm_compute. split; reflexivity. Qed.

End Instances.

(** * Further properties of the manager *)

#[local] Set Warnings "-clear-no-such-hyp".

(** ** Song IDs *)

(** X1: on 32-bit IDs [adjustSongID] does not overflow: its result is a
    32-bit integer, and for a built-in song it is negative. *)
Theorem adjustSongID_range (id : Z) (robtop : bool) :
  is_int id ->
  is_int (adjustSongID id robtop)
  /\ (robtop = true -> adjustSongID id robtop < 0).
Proof.
  intros Hid. split; [apply adjustSongID_is_int; exact Hid|].
  intros ->. apply adjustSongID_robtop_negative.
Qed.

Lemma adjustSongID_range_witness :
  is_int (adjustSongID int_max true)
  /\ (true = true -> adjustSongID int_max true < 0).
Proof.
  apply adjustSongID_range. unfold is_int, int_min, int_max. lia.
Defined.

(** X2: the keys of built-in songs. For non-negative IDs the derived keys are
    pairwise distinct, none of them is the key of a user song (a
    non-negative ID), and the ID is recovered from the key as
    [- key - 1]. *)
Theorem adjustSongID_builtin_keys (a b : Z) :
  0 <= a -> 0 <= b ->
  (adjustSongID a true = adjustSongID b true -> a = b)
  /\ adjustSongID a true <> adjustSongID b false
  /\ - adjustSongID a true - 1 = a.
Proof.
  intros Ha Hb. unfold adjustSongID.
  destruct (Z.ltb_spec a 0), (Z.ltb_spec b 0); lia.
Qed.

Lemma adjustSongID_builtin_keys_witness :
  (adjustSongID 3 true = adjustSongID 7 true -> 3 = 7)
  /\ adjustSongID 3 true <> adjustSongID 7 false
  /\ - adjustSongID 3 true - 1 = 3.
Proof. apply adjustSongID_builtin_keys; lia. Defined.

(** ** [initSongID] on the other paths *)

Section InitSongIDMore.
Context `{Host}.

Lemma map_index_bound (k : Z) (m : manifest) :
  is_Some (fst (map_index k m) !! k).
Proof.
  unfold map_index. destruct (m !! k) as [p|] eqn:E; cbn [fst].
  - rewrite E. eauto.
  - rewrite lookup_insert_eq. eauto.
Qed.

Lemma map_insert_bound (k : Z) (n : Nongs) (m : manifest) :
  is_Some (map_insert k n m !! k).
Proof.
  rewrite map_insert_lookup. destruct (m !! k); [eauto|].
  rewrite decide_True by reflexivity. eauto.
Qed.

(** A call either changes nothing or leaves the key [id] bound. *)
Lemma initSongID_unchanged_or_bound (obj : option SongInfoObject) (id : Z)
    (robtop : bool) (m : manifest) (h : HostLog) :
  initSongID obj id robtop m h = (m, h)
  \/ is_Some (fst (initSongID obj id robtop m h) !! id).
Proof.
  unfold initSongID.
  destruct (contains m id); [left; reflexivity|].
  destruct obj as [o|], robtop; cbn [negb bool_decide andb];
    try (left; reflexivity); right;
    [ | | destruct (getSongInfoObject id) as [o|] ];
    cbn [draw request_info draws negb fst];
    try apply map_insert_bound;
    match goal with
    | |- context [map_index id ?X] =>
        pose proof (map_index_bound id X) as Hb;
        destruct (map_index id X) as [m3 p]; exact Hb
    end.
Qed.

(** X3: a second call of [initSongID] with the same arguments is a no-op,
    whatever the first call did. *)
Theorem initSongID_twice (obj : option SongInfoObject) (id : Z)
    (robtop : bool) (m : manifest) (h : HostLog) :
  let r := initSongID obj id robtop m h in
  initSongID obj id robtop (fst r) (snd r) = r.
Proof.
  cbn zeta.
  destruct (initSongID_unchanged_or_bound obj id robtop m h) as [E|Hb].
  - rewrite E. cbn [fst snd]. exact E.
  - rewrite initSongID_existing by exact Hb.
    destruct (initSongID obj id robtop m h). reflexivity.
Qed.

(** X4: [initSongID] never removes or replaces a binding of the
    manifest. *)
Theorem initSongID_keeps_bindings (obj : option SongInfoObject) (id : Z)
    (robtop : bool) (m : manifest) (h : HostLog) (k : Z)
    (p : option Nongs) :
  m !! k = Some p ->
  fst (initSongID obj id robtop m h) !! k = Some p.
Proof.
  intros Hk. unfold initSongID.
  destruct (contains m id) eqn:Hc; [exact Hk|].
  apply contains_false in Hc.
  assert (k <> id) as Hne by (intros ->; congruence).
  assert (forall j n, map_insert j n m !! k = Some p) as Hins.
  { intros j n. rewrite map_insert_lookup, Hk. reflexivity. }
  assert (forall m', m' !! k = Some p ->
            fst (map_index id m') !! k = Some p) as Hidx.
  { intros m' Hm'. unfold map_index. destruct (m' !! id); cbn [fst].
    - exact Hm'.
    - rewrite lookup_insert_ne by congruence. exact Hm'. }
  destruct obj as [o|], robtop; cbn [negb bool_decide andb];
    try exact Hk;
    [ | | destruct (getSongInfoObject id) as [o|] ];
    cbn [draw request_info draws negb fst];
    try apply Hins;
    match goal with
    | |- context [map_index id ?X] =>
        pose proof (Hidx X (Hins _ _)) as Hb;
        destruct (map_index id X) as [m3 q]; exact Hb
    end.
Qed.

End InitSongIDMore.

Section InitSongIDPaths.
Context `{Host}.

Lemma initSongID_fresh_user (obj : option SongInfoObject)
    (o : SongInfoObject) (id : Z) (m : manifest) (h : HostLog) :
  m !! id = None ->
  match obj with Some x => Some x | None => getSongInfoObject id end
  = Some o ->
  initSongID obj id false m h
  = (<[id := Some (create id
                     (mkLocal
                        (mkMetadata id (random_string (draws h))
                                    (m_songName o) (m_artistName o) 0 None)
                        (pathForSong id)))]> m,
     mkHostLog (S (draws h)) (info_requests h)
               (index_registered h ++ [ptr_to id])%list).
Proof.
  intros Hm Ho. unfold initSongID.
  assert (contains m id = false) as Hc by (apply contains_false; exact Hm).
  rewrite Hc. rewrite andb_false_r.
  assert (forall n, map_index id (map_insert id n m)
                    = (<[id := Some n]> m, Some n)) as Hidx.
  { intros n. unfold map_index, map_insert. rewrite Hc.
    rewrite lookup_insert_eq. reflexivity. }
  destruct obj as [x|].
  - injection Ho as ->. cbn [draw negb]. rewrite Hidx. reflexivity.
  - cbn [negb]. rewrite Ho. cbn [draw negb]. rewrite Hidx. reflexivity.
Qed.

(** X5: a user song that is not in the manifest and whose song object is
    given or found in the host's cache. The aggregate is bound under
    [id], with the host's name and artist, the path [pathForSong(id)], a
    fresh uniqueID and the default entry active; the pointer registered
    with the index is the one to this aggregate, and nothing else in the
    manifest changes. *)
Theorem initSongID_user_song (obj : option SongInfoObject)
    (o : SongInfoObject) (id : Z) (m : manifest) (h : HostLog) :
  m !! id = None ->
  match obj with Some x => Some x | None => getSongInfoObject id end
  = Some o ->
  initSongID obj id false m h
  = (<[id := Some (create id
                     (mkLocal
                        (mkMetadata id (random_string (draws h))
                                    (m_songName o) (m_artistName o) 0 None)
                        (pathForSong id)))]> m,
     mkHostLog (S (draws h)) (info_requests h)
               (index_registered h ++ [ptr_to id])%list).
Proof. intros. apply initSongID_fresh_user; assumption. Qed.

Lemma initSongID_fresh_unknown (id : Z) (m : manifest) (h : HostLog) :
  m !! id = None ->
  getSongInfoObject id = None ->
  initSongID None id false m h
  = (<[id := Some (create id (createUnknown id (random_string (draws h))))]> m,
     mkHostLog (S (draws h)) (info_requests h ++ [id])%list
               (index_registered h)).
Proof.
  intros Hm Ho. unfold initSongID.
  assert (contains m id = false) as Hc by (apply contains_false; exact Hm).
  rewrite Hc. cbn [negb bool_decide andb]. rewrite andb_false_r.
  cbn [negb]. rewrite Ho. unfold map_insert. rewrite Hc. reflexivity.
Qed.

(** X6: a user song that is not in the manifest, with no song object
    given and none in the host's cache. The song information is requested
    from the servers, a placeholder aggregate is bound under [id], and
    nothing is registered with the index. *)
Theorem initSongID_placeholder (id : Z) (m : manifest) (h : HostLog) :
  m !! id = None ->
  getSongInfoObject id = None ->
  initSongID None id false m h
  = (<[id := Some (create id (createUnknown id (random_string (draws h))))]> m,
     mkHostLog (S (draws h)) (info_requests h ++ [id])%list
               (index_registered h)).
Proof. intros. apply initSongID_fresh_unknown; assumption. Qed.

Lemma initSongID_fresh_derived (o : SongInfoObject) (id : Z)
    (m : manifest) (h : HostLog) :
  id < 0 ->
  m !! id = None ->
  initSongID (Some o) id true m h
  = (<[id := Some (create id
                     (mkLocal
                        (mkMetadata id (random_string (draws h))
                                    (m_songName o) (m_artistName o) 0 None)
                        (path_join (path_join getWritablePath2 "Resources")
                                   (getAudioFileName id))))]> m,
     mkHostLog (S (draws h)) (info_requests h)
               (index_registered h ++ [ptr_to id])%list).
Proof.
  intros Hid Hm. unfold initSongID.
  assert (contains m id = false) as Hc by (apply contains_false; exact Hm).
  rewrite Hc. cbn [negb bool_decide andb].
  rewrite (adjustSongID_negative_unchanged id Hid).
  cbn [draw negb]. unfold map_index, map_insert. rewrite Hc.
  rewrite lookup_insert_eq. reflexivity.
Qed.

(** X7: a built-in song given by its derived (negative) key, not in the
    manifest, with a song object. The key is used throughout: the
    aggregate is bound under [id], with the audio file of the game's
    resources as path, and the pointer registered with the index is the
    one to this aggregate. *)
Theorem initSongID_robtop_derived_key (o : SongInfoObject) (id : Z)
    (m : manifest) (h : HostLog) :
  id < 0 ->
  m !! id = None ->
  initSongID (Some o) id true m h
  = (<[id := Some (create id
                     (mkLocal
                        (mkMetadata id (random_string (draws h))
                                    (m_songName o) (m_artistName o) 0 None)
                        (path_join (path_join getWritablePath2 "Resources")
                                   (getAudioFileName id))))]> m,
     mkHostLog (S (draws h)) (info_requests h)
               (index_registered h ++ [ptr_to id])%list).
Proof. intros. apply initSongID_fresh_derived; assumption. Qed.

(** X8: except for a built-in song given by a non-negative ID,
    [initSongID] binds no key to a null pointer: a manifest without null
    pointers stays one. *)
Theorem initSongID_no_null (obj : option SongInfoObject) (id : Z)
    (robtop : bool) (m : manifest) (h : HostLog) :
  robtop = false \/ id < 0 ->
  no_null m ->
  no_null (fst (initSongID obj id robtop m h)).
Proof.
  intros Hcase Hnull.
  destruct (m !! id) as [p|] eqn:Hm.
  { rewrite initSongID_existing by eauto. exact Hnull. }
  destruct robtop.
  - destruct Hcase as [Hf|Hid]; [discriminate|].
    destruct obj as [o|].
    + rewrite initSongID_fresh_derived by assumption.
      cbn [fst]. intros k. rewrite lookup_insert.
      destruct (decide (id = k)); [discriminate|apply Hnull].
    + unfold initSongID.
      assert (contains m id = false) as -> by (apply contains_false; done).
      exact Hnull.
  - destruct (match obj with Some x => Some x | None => getSongInfoObject id end)
      as [o|] eqn:Ho.
    + rewrite (initSongID_fresh_user obj o) by assumption.
      cbn [fst]. intros k. rewrite lookup_insert.
      destruct (decide (id = k)); [discriminate|apply Hnull].
    + destruct obj as [x|]; [discriminate|].
      rewrite initSongID_fresh_unknown by assumption.
      cbn [fst]. intros k. rewrite lookup_insert.
      destruct (decide (id = k)); [discriminate|apply Hnull].
Qed.

(** X9: [getStoredIDCount] after [initSongID] for a user song: the count
    is unchanged when the ID was in the manifest and is one more when it
    was not (as long as the count fits an [int]). *)
Theorem getStoredIDCount_initSongID (obj : option SongInfoObject) (id : Z)
    (m : manifest) (h : HostLog) :
  Z.of_nat (size m) < int_max ->
  getStoredIDCount (fst (initSongID obj id false m h))
  = if contains m id then getStoredIDCount m else getStoredIDCount m + 1.
Proof.
  intros Hsize.
  assert (forall z, 0 <= z <= int_max -> wrap_int z = z) as Hwrap.
  { intros z Hz. unfold wrap_int, int_max in *.
    rewrite Z.mod_small by lia. lia. }
  unfold getStoredIDCount.
  destruct (contains m id) eqn:Hc.
  - apply contains_true in Hc. rewrite initSongID_existing by exact Hc.
    reflexivity.
  - apply contains_false in Hc.
    assert (forall n, size (<[id := Some n]> m) = S (size m)) as Hs.
    { intros n. apply map_size_insert_None. exact Hc. }
    destruct (match obj with Some x => Some x | None => getSongInfoObject id end)
      as [o|] eqn:Ho.
    + rewrite (initSongID_fresh_user obj o) by assumption.
      cbn [fst]. rewrite Hs, !Hwrap by lia. lia.
    + destruct obj as [x|]; [discriminate|].
      rewrite initSongID_fresh_unknown by assumption.
      cbn [fst]. rewrite Hs, !Hwrap by lia. lia.
Qed.

End InitSongIDPaths.

(** ** Loading and the scan of the directory *)

Lemma stoi_is_int (s : string) (z : Z) : stoi s = Normal z -> is_int z.
Proof.
  unfold stoi. destruct (skip_spaces s) as [|a r]; cbn.
  { discriminate. }
  intros E.
  repeat match type of E with
         | context [let '(_, _) := ?x in _] => destruct x
         | context [match ?x with _ => _ end] => destruct x eqn:?
         end;
    try discriminate;
    injection E as <-; unfold is_int;
    match goal with
    | Hr : (_ <=? _) && (_ <=? _) = true |- _ =>
        apply andb_true_iff in Hr as [H1 H2];
        apply Z.leb_le in H1, H2; lia
    end.
Qed.

Section LoadMore.
Context `{Json}.

(** X10: a load succeeds only in one way: the stem is read by [std::stoi]
    as a non-zero 32-bit number [id], the file can be opened, its content
    is JSON and the deserialiser accepts it for [id]; the aggregate
    returned is the deserialiser's. *)
Theorem loadNongsFromPath_ok_inv (fs : directory) (fname : string)
    (nongs : Nongs) :
  loadNongsFromPath fs fname = Normal (Ok nongs) ->
  exists id contents j,
    stoi (stem fname) = Normal id
    /\ id <> 0 /\ is_int id
    /\ fs !! fname = Some contents
    /\ json_parse contents = Ok j
    /\ from_json j id = Ok nongs.
Proof.
  unfold loadNongsFromPath. intros E.
  destruct (stoi (stem fname)) as [id| |] eqn:Hid; try discriminate.
  cbn [mbind outcome_bind] in E.
  destruct (Z.eqb_spec id 0) as [|Hne]; [discriminate|].
  destruct (fs !! fname) as [contents|]; [|discriminate].
  destruct (json_parse contents) as [j|] eqn:Hj; [|discriminate].
  destruct (from_json j id) as [n|] eqn:Hn; [|discriminate].
  injection E as <-. exists id, contents, j.
  split; [reflexivity|]. split; [exact Hne|].
  split; [exact (stoi_is_int _ _ Hid)|]. done.
Qed.

(** Files without the extension [.json] play no part in the scan. *)
Lemma scanManifestDir_filter (listing : list string) :
  forall (fs : directory) (m : manifest),
  scanManifestDir listing fs m
  = scanManifestDir
      (List.filter (fun f => bool_decide (extension f = ".json")) listing)
      fs m.
Proof.
  induction listing as [|f rest IH]; intros fs m; [reflexivity|].
  cbn [scanManifestDir List.filter].
  destruct (bool_decide (extension f = ".json")) eqn:Hx; cbn [negb].
  - cbn [scanManifestDir]. rewrite Hx. cbn [negb].
    destruct (loadNongsFromPath fs f) as [[n|e]| |];
      cbn [mbind outcome_bind]; try reflexivity.
    + apply IH.
    + destruct (rename f _ fs) as [fs'| |]; cbn [mbind outcome_bind];
        try reflexivity.
      apply IH.
  - apply IH.
Qed.

(** X11: the scan of the manifest directory looks only at the files whose
    extension is [.json]: the other entries of the listing can be removed
    without changing the outcome, and a quarantined name ([.bak] appended)
    is such an entry, so that a quarantined file is never loaded again. *)
Theorem scanManifestDir_ignores_other_files (listing : list string)
    (f : string) (fs : directory) (m : manifest) :
  scanManifestDir listing fs m
  = scanManifestDir
      (List.filter (fun g => bool_decide (extension g = ".json")) listing)
      fs m
  /\ scanManifestDir (String.append f ".bak" :: listing) fs m
     = scanManifestDir listing fs m.
Proof.
  split; [apply scanManifestDir_filter|].
  cbn [scanManifestDir].
  rewrite bool_decide_eq_false_2 by apply extension_bak. reflexivity.
Qed.

Lemma scanManifestDir_monotone (listing : list string) :
  forall (fs fs1 : directory) (m m1 : manifest),
  scanManifestDir listing fs m = Normal (fs1, m1) ->
  (forall k p, m !! k = Some p -> m1 !! k = Some p)
  /\ (no_null m -> no_null m1).
Proof.
  induction listing as [|f rest IH]; intros fs fs1 m m1 E.
  { injection E as <- <-. done. }
  cbn [scanManifestDir] in E.
  destruct (bool_decide (extension f = ".json")); cbn [negb] in E.
  2:{ exact (IH _ _ _ _ E). }
  destruct (loadNongsFromPath fs f) as [[n|e]| |];
    cbn [mbind outcome_bind] in E; try discriminate.
  - destruct (IH _ _ _ _ E) as [Hk Hn]. split.
    + intros k p Hm. apply Hk. rewrite map_insert_lookup, Hm. reflexivity.
    + intros Hnull. apply Hn, no_null_map_insert, Hnull.
  - destruct (rename f _ fs) as [fs'| |]; cbn [mbind outcome_bind] in E;
      try discriminate.
    exact (IH _ _ _ _ E).
Qed.

(** X12: a scan that returns has kept every binding the manifest had
    before it (an aggregate already stored is never replaced by one from
    a file), and it binds no key to a null pointer. *)
Theorem scanManifestDir_keeps_bindings (listing : list string)
    (fs fs1 : directory) (m m1 : manifest) :
  scanManifestDir listing fs m = Normal (fs1, m1) ->
  (forall k p, m !! k = Some p -> m1 !! k = Some p)
  /\ (no_null m -> no_null m1).
Proof. apply scanManifestDir_monotone. Qed.

End LoadMore.

(** ** [init] and the migration *)

Section InitMore.
Context `{Json} `{NongsOps}.

(** X13: [init] is idempotent. When a call returns, it returns [true] and
    leaves the manager initialised; every later call, whatever the
    directory and the legacy manifest then are, returns [true] without
    reading or changing anything. *)
Theorem init_idempotent (listing : list string) (old : legacy)
    (mgr mgr' : NongManager) (fs fs' : directory) (r b : bool) :
  init listing old mgr fs = Normal (r, mgr', fs', b) ->
  r = true
  /\ m_initialized mgr' = true
  /\ forall listing2 old2 fs2,
       init listing2 old2 mgr' fs2 = Normal (true, mgr', fs2, false).
Proof.
  unfold init. intros E.
  assert (r = true /\ m_initialized mgr' = true) as [-> Hi].
  { destruct (m_initialized mgr) eqn:Hm.
    - injection E as <- <- <- <-. done.
    - destruct (scanManifestDir listing fs (m_nongs mgr)) as [[fs1 m1]| |];
        cbn [mbind outcome_bind] in E; try discriminate.
      destruct (migrateV2 old m1 fs1) as [[[[r2 m2] fs2] b2]| |];
        cbn [mbind outcome_bind] in E; try discriminate.
      injection E as <- <- <- <-. done. }
  split; [reflexivity|]. split; [exact Hi|].
  intros listing2 old2 fs2. rewrite Hi. reflexivity.
Qed.

(** X14: a legacy manifest that is absent or that does not parse does not
    stand in the way of startup: [init] returns [true] with the manifest
    and the directory as the scan left them, and the legacy file is not
    backed up. *)
Theorem init_without_usable_legacy (listing : list string) (old : legacy)
    (mgr : NongManager) (fs fs1 : directory) (m1 : manifest) :
  m_initialized mgr = false ->
  old = None \/ (exists e, old = Some (Err e)) ->
  scanManifestDir listing fs (m_nongs mgr) = Normal (fs1, m1) ->
  init listing old mgr fs = Normal (true, mkManager true m1, fs1, false).
Proof.
  intros Hi Hold Hscan. unfold init. rewrite Hi, Hscan.
  cbn [mbind outcome_bind].
  destruct Hold as [->|[e ->]]; reflexivity.
Qed.

Lemma path_equal_refl (p : string) : path_equal p p = true.
Proof. unfold path_equal. apply bool_decide_eq_true_2. reflexivity. Qed.

Lemma migrate_songs_filter (keep : LocalSong -> bool) (default_path : string)
    (songs : list LocalSong) :
  (forall i, keep i = false -> path_equal (l_path i) default_path = true) ->
  forall nongs,
  migrate_songs default_path songs nongs
  = migrate_songs default_path (List.filter keep songs) nongs.
Proof.
  intros Hkeep. induction songs as [|i rest IH]; intros nongs;
    [reflexivity|].
  cbn [List.filter]. destruct (keep i) eqn:Hk.
  - cbn [migrate_songs].
    destruct (path_equal (l_path i) default_path); [apply IH|].
    destruct (dedup_found (locals nongs) i); apply IH.
  - cbn [migrate_songs]. rewrite (Hkeep i Hk). apply IH.
Qed.

(** X15: the migration of one record never offers the aggregate a song
    whose path is the path of the record's default: the songs with that
    path, written with the same text or only equal as paths, can be
    removed from the list without changing the result. *)
Theorem migrate_songs_skips_default_path (default_path : string)
    (songs : list LocalSong) (nongs : Nongs) :
  migrate_songs default_path songs nongs
  = migrate_songs default_path
      (List.filter (fun i => negb (bool_decide (l_path i = default_path)))
                   songs)
      nongs
  /\ migrate_songs default_path songs nongs
     = migrate_songs default_path
         (List.filter (fun i => negb (path_equal (l_path i) default_path))
                      songs)
         nongs.
Proof.
  split; apply migrate_songs_filter; intros i Hi;
    apply negb_false_iff in Hi.
  - apply bool_decide_eq_true in Hi. rewrite Hi. apply path_equal_refl.
  - exact Hi.
Qed.

Lemma migrate_records_dom (records : list (Z * CompatManifest)) :
  forall (m : manifest) (fs : directory),
  no_null m ->
  exists m' fs',
    migrate_records records m fs = Normal (m', fs')
    /\ no_null m'
    /\ dom m' = dom m ∪ list_to_set records.*1.
Proof.
  induction records as [|[id rec] rest IH]; intros m fs Hm.
  { exists m, fs. split; [reflexivity|]. split; [exact Hm|].
    cbn. set_solver. }
  cbn [migrate_records].
  set (m1 := if negb (contains m id)
             then map_insert id (create id (c_defaultSong rec)) m else m).
  assert (no_null m1) as Hm1.
  { unfold m1. destruct (negb _); [apply no_null_map_insert|]; exact Hm. }
  assert (is_Some (m1 !! id) /\ dom m1 = {[ id ]} ∪ dom m) as [[p Hp] Hd].
  { unfold m1. destruct (contains m id) eqn:E; cbn [negb].
    - apply contains_true in E. split; [exact E|].
      apply elem_of_dom in E. set_solver.
    - apply contains_false in E. split.
      + rewrite map_insert_lookup, E.
        rewrite decide_True by reflexivity. eauto.
      + unfold map_insert.
        rewrite (proj2 (contains_false m id) E). apply dom_insert_L. }
  unfold map_index. rewrite Hp.
  destruct p as [nongs|]; [|destruct (Hm1 id Hp)].
  match goal with
  | |- context [migrate_records rest ?M ?F] =>
      destruct (IH M F (no_null_insert _ _ _ Hm1)) as (m' & fs' & -> & Hn & Hdom)
  end.
  exists m', fs'. split; [reflexivity|]. split; [exact Hn|].
  rewrite Hdom, dom_insert_L, Hd. cbn [fmap list_fmap fst list_to_set].
  set_solver.
Qed.

(** X16: on a manifest without null pointers, the migration of a legacy
    manifest that parses runs through all its records, reports success
    and backs the legacy file up; afterwards the manifest has an
    aggregate for exactly the IDs it had before and the IDs of the
    records, and still no null pointer. *)
Theorem migrateV2_binds_legacy_ids (records : list (Z * CompatManifest))
    (m : manifest) (fs : directory) :
  no_null m ->
  exists m' fs',
    migrateV2 (Some (Ok records)) m fs = Normal (Ok (), m', fs', true)
    /\ no_null m'
    /\ dom m' = dom m ∪ list_to_set records.*1.
Proof.
  intros Hm. cbn [migrateV2].
  destruct (migrate_records_dom records m fs Hm) as (m' & fs' & -> & Hn & Hd).
  exists m', fs'. done.
Qed.

End InitMore.

(** ** Saving *)

Section SaveMore.
Context `{NongsOps}.

Lemma saveNongs_loop_no_null (saveID : option Z)
    (l : list (Z * option Nongs)) :
  forall fs : directory,
  Forall (fun e => e.2 <> None) l ->
  exists r fs', saveNongs_loop saveID l fs = Normal (r, fs').
Proof.
  induction l as [|[k p] l IH]; intros fs Hl; [cbn; eauto|].
  apply Forall_cons in Hl as [Hp Hl]. cbn [saveNongs_loop].
  destruct (match saveID with Some v => negb (v =? k) | None => false end);
    [apply IH, Hl|].
  destruct p as [n|]; [|done].
  destruct (Nongs_commit n fs) as [[u|e] fs']; [apply IH, Hl|eauto].
Qed.

Lemma saveNongs_loop_all_null (l : list (Z * option Nongs)) (k : Z) :
  forall fs : directory,
  (forall n fs0, fst (Nongs_commit n fs0) = Ok ()) ->
  (k, None) ∈ l ->
  saveNongs_loop None l fs = NullDeref.
Proof.
  induction l as [|[j p] l IH]; intros fs Hok Hin.
  { apply elem_of_nil in Hin. done. }
  cbn [saveNongs_loop]. destruct p as [n|]; [|reflexivity].
  apply elem_of_cons in Hin as [E|Hin]; [discriminate E|].
  pose proof (Hok n fs) as Hc.
  destruct (Nongs_commit n fs) as [[u|e] fs']; cbn [fst] in Hc;
    [|discriminate].
  apply IH; assumption.
Qed.

(** X17: [saveNongs] and null pointers. On a manifest without null
    pointers it returns, for one ID as for all. When a key is bound to a
    null pointer (which [initSongID] does for a built-in song given by a
    non-negative ID) and commits succeed, saving all IDs dereferences the
    null pointer. *)
Theorem saveNongs_null_pointers (m : manifest) (fs : directory) :
  (no_null m ->
   forall saveID, exists r fs', saveNongs saveID m fs = Normal (r, fs'))
  /\ ((forall n fs0, fst (Nongs_commit n fs0) = Ok ()) ->
      forall k, m !! k = Some None -> saveNongs None m fs = NullDeref).
Proof.
  split.
  - intros Hnull saveID. unfold saveNongs. apply saveNongs_loop_no_null.
    apply Forall_forall. intros [k p] Hin.
    apply elem_of_map_to_list in Hin. cbn. intros ->. exact (Hnull k Hin).
  - intros Hok k Hk. unfold saveNongs.
    apply (saveNongs_loop_all_null _ k); [exact Hok|].
    apply elem_of_map_to_list. exact Hk.
Qed.

(** X18: saving an ID the manifest does not have succeeds and writes
    nothing. *)
Theorem saveNongs_unknown_id (id : Z) (m : manifest) (fs : directory) :
  m !! id = None -> saveNongs (Some id) m fs = Normal (Ok (), fs).
Proof.
  intros Hm. rewrite saveNongs_one, Hm. reflexivity.
Qed.

(** ** The listener, again *)

(** X19: delivering the same SongInfoFetched event a second time changes
    nothing and stops the propagation, whatever the first delivery
    did. *)
Theorem songInfoListener_twice (g : Z) (n a : string) (m m' : manifest)
    (fs fs' : directory) (r : ListenerResult) :
  songInfoListener g n a m fs = Normal (r, m', fs') ->
  songInfoListener g n a m' fs' = Normal (Stop, m', fs').
Proof.
  unfold songInfoListener. rewrite !getNongs_lookup.
  destruct (m !! g) as [[nongs|]|] eqn:Hm; [| discriminate |].
  - destruct (bool_decide (n = name (l_metadata (defaultSong nongs)))
              && bool_decide (a = artist (l_metadata (defaultSong nongs))))
      eqn:Hsame.
    + intros E. injection E as <- <- <-. rewrite Hm, Hsame. reflexivity.
    + rewrite saveNongs_one, lookup_insert_eq. cbn [mbind outcome_bind].
      destruct (Nongs_commit _ fs) as [c fs2].
      intros E. injection E as <- <- <-.
      rewrite lookup_insert_eq. cbn.
      rewrite !bool_decide_eq_true_2 by reflexivity. reflexivity.
  - intros E. injection E as <- <- <-. rewrite Hm. reflexivity.
Qed.

(** X20: the listener changes nothing but the name and the artist of the
    default entry of the song it is called for: the other songs keep
    their binding, no key is added or removed, and the aggregate of the
    song keeps its song ID, its candidates, its active uniqueID and the
    uniqueID and path of its default entry. *)
Theorem songInfoListener_frame (g : Z) (n a : string) (m m' : manifest)
    (fs fs' : directory) (r : ListenerResult) :
  songInfoListener g n a m fs = Normal (r, m', fs') ->
  (forall k, k <> g -> m' !! k = m !! k)
  /\ dom m' = dom m
  /\ forall nongs, m !! g = Some (Some nongs) ->
       exists nongs', m' !! g = Some (Some nongs')
         /\ songID nongs' = songID nongs
         /\ locals nongs' = locals nongs
         /\ youtubes nongs' = youtubes nongs
         /\ hosteds nongs' = hosteds nongs
         /\ activeID nongs' = activeID nongs
         /\ uniqueID (l_metadata (defaultSong nongs'))
            = uniqueID (l_metadata (defaultSong nongs))
         /\ l_path (defaultSong nongs') = l_path (defaultSong nongs).
Proof.
  unfold songInfoListener. rewrite getNongs_lookup.
  destruct (m !! g) as [[nongs|]|] eqn:Hm; [| discriminate |].
  - destruct (bool_decide (n = name (l_metadata (defaultSong nongs)))
              && bool_decide (a = artist (l_metadata (defaultSong nongs)))).
    + intros E. injection E as <- <- <-.
      split; [done|]. split; [done|].
      intros x Hx. injection Hx as <-. exists nongs. rewrite Hm. done.
    + rewrite saveNongs_one, lookup_insert_eq. cbn [mbind outcome_bind].
      destruct (Nongs_commit _ fs) as [c fs2].
      intros E. injection E as <- <- <-. split; [|split].
      * intros k Hk. apply lookup_insert_ne. congruence.
      * rewrite dom_insert_L.
        assert (g ∈ dom m) by (apply elem_of_dom; eauto). set_solver.
      * intros x Hx. injection Hx as <-.
        exists (set_default_name_artist n a nongs).
        rewrite lookup_insert_eq. done.
  - intros E. injection E as <- <- <-.
    split; [done|]. split; [done|]. intros x Hx. discriminate Hx.
Qed.

End SaveMore.

(** ** The entry points, again *)

Section FacadeMore.
Context `{Host} `{NongsOps}.

Lemma insert_bound_frame (id : Z) (p q : option Nongs) (m : manifest) :
  m !! id = Some p ->
  dom (<[id := q]> m) = dom m
  /\ forall k, k <> id -> <[id := q]> m !! k = m !! k.
Proof.
  intros Hm. split.
  - rewrite dom_insert_L.
    assert (id ∈ dom m) by (apply elem_of_dom; eauto). set_solver.
  - intros k Hk. apply lookup_insert_ne. congruence.
Qed.

Ltac keeps_keys_by method :=
  intros m m' fs fs' r; rewrite ?getNongs_lookup;
  destruct (m !! _) as [[nongs|]|] eqn:Hm; try discriminate;
  [ destruct (method nongs) as [[u|e] nongs'];
    [ try (destruct (saveNongs _ _ fs) as [[r2 fs2]| |];
           cbn [mbind outcome_bind]; try discriminate);
      try destruct (Nongs_commit nongs' fs) as [r2 fs2]
    | ];
    intros E; injection E as <- <- <-;
    exact (insert_bound_frame _ _ _ _ Hm)
  | intros E; injection E as <- <- <-; done ].

(** X21: none of the five entry points adds or removes a key of the
    manifest, and none touches the binding of a song other than the one
    it is called for; this holds on success and on failure. *)
Theorem entry_points_keep_keys (id : Z) (uid : string) (other : Nongs) :
  keeps_keys (songID other) (addNongs other)
  /\ keeps_keys id (setActiveSong id uid)
  /\ keeps_keys id (deleteSong id uid)
  /\ keeps_keys id (deleteSongAudio id uid)
  /\ keeps_keys id (deleteAllSongs id).
Proof.
  split; [|split; [|split; [|split]]].
  - unfold keeps_keys, addNongs. intros m m' fs fs' r.
    destruct (m !! songID other) as [[stored|]|] eqn:Hm.
    + assert (contains m (songID other) = true) as ->
        by (apply contains_true; eauto).
      cbn [negb]. unfold map_index. rewrite Hm. cbn [snd].
      destruct (Nongs_merge other stored) as [[u|e] stored'].
      * destruct (saveNongs _ _ fs) as [[r2 fs2]| |];
          cbn [mbind outcome_bind]; try discriminate.
        intros E. injection E as <- <- <-.
        exact (insert_bound_frame _ _ _ _ Hm).
      * intros E. injection E as <- <- <-.
        exact (insert_bound_frame _ _ _ _ Hm).
    + assert (contains m (songID other) = true) as ->
        by (apply contains_true; eauto).
      cbn [negb]. unfold map_index. rewrite Hm. discriminate.
    + assert (contains m (songID other) = false) as ->
        by (apply contains_false; done).
      intros E. injection E as <- <- <-. done.
  - unfold keeps_keys, setActiveSong.
    keeps_keys_by (Nongs_setActive uid).
  - unfold keeps_keys, deleteSong.
    keeps_keys_by (Nongs_deleteSong uid).
  - unfold keeps_keys, deleteSongAudio.
    keeps_keys_by (Nongs_deleteSongAudio uid).
  - unfold keeps_keys, deleteAllSongs.
    keeps_keys_by Nongs_deleteAllSongs.
Qed.

(** X22: [initSongID] for a built-in song given by a non-negative ID that
    is not in the manifest leaves that ID bound to a null pointer, which
    [getNongs] then returns as if an aggregate existed; each entry point
    and the song-info listener called for the ID afterwards dereference
    it. *)
Theorem initSongID_robtop_then_null_deref (o : SongInfoObject) (id : Z)
    (m : manifest) (h : HostLog) (uid nm ar : string) (fs : directory) :
  0 <= id -> m !! id = None ->
  let m' := fst (initSongID (Some o) id true m h) in
  getNongs m' id = Some None
  /\ setActiveSong id uid m' fs = NullDeref
  /\ deleteSong id uid m' fs = NullDeref
  /\ deleteSongAudio id uid m' fs = NullDeref
  /\ deleteAllSongs id m' fs = NullDeref
  /\ songInfoListener id nm ar m' fs = NullDeref.
Proof.
  intros Hid Hm. cbn zeta.
  rewrite initSongID_robtop_nonneg by assumption. cbn [fst].
  unfold setActiveSong, deleteSong, deleteSongAudio, deleteAllSongs,
    songInfoListener.
  rewrite !getNongs_lookup, !lookup_insert_eq. done.
Qed.

End FacadeMore.

(** ** The listener and the entry points on a key bound to null *)

Section NullBinding.
Context `{Host} `{NongsOps}.

(** The manifest after [initSongID(obj, 0, true)] on a manifest that
    holds the aggregate [A] of the built-in song 0 under its derived
    key. *)
Lemma initSongID_leaves_null (o : SongInfoObject) (A : Nongs) (h : HostLog) :
  fst (initSongID (Some o) 0 true {[ -1 := Some A ]} h)
  = <[0 := None]> {[ -1 := Some A ]}.
Proof.
  rewrite initSongID_robtop_nonneg by (try lia; reflexivity).
  cbn [fst]. change (- 0 - 1) with (-1).
  rewrite map_insert_present by (rewrite lookup_singleton_eq; eauto).
  reflexivity.
Qed.

(** C5, on an input it fails on: the manifest is the one that
    [initSongID(obj, 0, true)] leaves when the aggregate of the built-in
    song 0 is stored under -1, and a SongInfoFetched event arrives for
    the song ID 0. No aggregate exists for 0, the key being bound to a
    null pointer, but [getNongs] returns a non-empty optional and the
    handler dereferences the null pointer instead of stopping the
    propagation. *)
Theorem songInfoListener_null_binding (o : SongInfoObject) (A : Nongs)
    (h : HostLog) (n a : string) (fs : directory) :
  let m := fst (initSongID (Some o) 0 true {[ -1 := Some A ]} h) in
  m !! 0 = Some None
  /\ getNongs m 0 = Some None
  /\ songInfoListener 0 n a m fs = NullDeref.
Proof.
  cbn zeta. rewrite initSongID_leaves_null.
  unfold songInfoListener. rewrite !getNongs_lookup, !lookup_insert_eq.
  done.
Qed.

(** C6, on an input it fails on: the same manifest, and each of the five
    entry points called for the song ID 0 ([addNongs] with an aggregate
    of song 0). No aggregate exists for 0, but
    none of them returns the error "Song not initialized in manifest":
    each dereferences the null pointer the key is bound to. *)
Theorem entry_points_null_binding (o : SongInfoObject) (A : Nongs)
    (d : LocalSong) (h : HostLog) (uid : string) (fs : directory) :
  let m := fst (initSongID (Some o) 0 true {[ -1 := Some A ]} h) in
  m !! 0 = Some None
  /\ addNongs (create 0 d) m fs = NullDeref
  /\ setActiveSong 0 uid m fs = NullDeref
  /\ deleteSong 0 uid m fs = NullDeref
  /\ deleteSongAudio 0 uid m fs = NullDeref
  /\ deleteAllSongs 0 m fs = NullDeref.
Proof.
  cbn zeta. rewrite initSongID_leaves_null.
  unfold addNongs, setActiveSong, deleteSong, deleteSongAudio,
    deleteAllSongs.
  cbn [create songID]. rewrite !getNongs_lookup.
  assert (contains (<[0 := None]> ({[ -1 := Some A ]} : manifest)) 0 = true)
    as -> by (apply contains_true; rewrite lookup_insert_eq; eauto).
  unfold map_index. rewrite !lookup_insert_eq. done.
Qed.

End NullBinding.

(** ** Sizes, again *)

Section SizesMore.
Context `{Host} `{FloatOps}.

Lemma song_loop_app (m : manifest) (fs : sizes) (pre post : list string) :
  forall sum : float,
  song_loop m fs (pre ++ post) sum
  = (sum' ← song_loop m fs pre sum; song_loop m fs post sum').
Proof.
  induction pre as [|s pre IH]; intros sum; [reflexivity|].
  cbn [app song_loop].
  destruct (song_step m fs s sum) as [sum'| |]; cbn [mbind outcome_bind];
    [apply IH|reflexivity|reflexivity].
Qed.

Lemma song_loop_unknown (m : manifest) (fs : sizes) (tokens : list string) :
  forall sum : float,
  Forall (fun t => exists id, stoi t = Normal id /\ m !! id = None) tokens ->
  song_loop m fs tokens sum = Normal sum.
Proof.
  induction tokens as [|t rest IH]; intros sum Hall; [reflexivity|].
  apply Forall_cons in Hall as [(id & Hid & Hm) Hrest].
  cbn [song_loop]. unfold song_step. rewrite Hid.
  cbn [mbind outcome_bind]. rewrite getNongs_lookup, Hm.
  cbn [mbind outcome_bind]. apply IH, Hrest.
Qed.

Lemma sfx_loop_missing (fs : sizes) (tokens : list string) :
  forall sum : float,
  Forall (fun t =>
            let filename := String.append "s" (String.append t ".ogg") in
            fs !! path_join (path_join resources "sfx") filename = None
            /\ fs !! path_join getWritablePath filename = None) tokens ->
  fold_left (fun acc s => sfx_step fs s acc) tokens sum = sum.
Proof.
  induction tokens as [|t rest IH]; intros sum Hall; [reflexivity|].
  apply Forall_cons in Hall as [[H1 H2] Hrest]. cbn zeta in H1, H2.
  cbn [fold_left]. unfold sfx_step at 2. rewrite H1.
  unfold add_size_if_exists. rewrite H2. apply IH, Hrest.
Qed.

(** X23: what is not there counts for nothing. When no song of the list
    has an aggregate and no sound effect of the list has a file, in the
    game's resources or in the save directory, [getMultiAssetSizes]
    returns the text of the total zero; this is the result for two empty
    lists. *)
Theorem getMultiAssetSizes_nothing_found (m : manifest) (fs : sizes)
    (songs sfx : string) :
  Forall (fun t => exists id, stoi t = Normal id /\ m !! id = None)
         (getline_tokens songs) ->
  Forall (fun t =>
            let filename := String.append "s" (String.append t ".ogg") in
            fs !! path_join (path_join resources "sfx") filename = None
            /\ fs !! path_join getWritablePath filename = None)
         (getline_tokens sfx) ->
  getMultiAssetSizes m fs songs sfx = Normal (megabytes_text float_zero)
  /\ getMultiAssetSizes m fs "" "" = Normal (megabytes_text float_zero).
Proof.
  intros Hsongs Hsfx. unfold getMultiAssetSizes. split.
  - rewrite song_loop_unknown by exact Hsongs. cbn [mbind outcome_bind].
    rewrite sfx_loop_missing by exact Hsfx. reflexivity.
  - reflexivity.
Qed.

(** X24: a token of the song list that [std::stoi] rejects ends the
    computation with the exception of [std::stoi], provided the tokens
    before it were summed without failure; an empty token, as between two
    commas, is rejected. *)
Theorem getMultiAssetSizes_bad_token (m : manifest) (fs : sizes)
    (songs sfx : string) (pre post : list string) (t : string) (e : exn)
    (sum : float) :
  getline_tokens songs = (pre ++ t :: post)%list ->
  song_loop m fs pre float_zero = Normal sum ->
  stoi t = Throws e ->
  getMultiAssetSizes m fs songs sfx = Throws e
  /\ stoi "" = Throws invalid_argument.
Proof.
  intros Htok Hpre Ht. split; [|reflexivity].
  unfold getMultiAssetSizes. rewrite Htok, song_loop_app, Hpre.
  cbn [mbind outcome_bind song_loop]. unfold song_step. rewrite Ht.
  reflexivity.
Qed.

End SizesMore.

(** ** Paths of song files *)

Lemma split_last_dot_free (s : string) :
  free_of "."%char s = true -> split_last_dot s = None.
Proof.
  induction s as [|c s IH]; [reflexivity|].
  cbn [free_of]. intros E. apply andb_true_iff in E as [Hc Hs].
  rewrite split_last_dot_cons, (IH Hs).
  destruct (bool_decide (c = "."%char)); [discriminate|reflexivity].
Qed.

Lemma split_last_dot_suffix (name e : string) :
  free_of "."%char e = true ->
  split_last_dot (String.append name (String "." e))
  = Some (name, String "." e).
Proof.
  intros He. induction name as [|c name IH].
  - change (String.append "" (String "." e)) with (String "." e).
    rewrite split_last_dot_cons, (split_last_dot_free e He). reflexivity.
  - change (String.append (String c name) (String "." e))
      with (String c (String.append name (String "." e))).
    rewrite split_last_dot_cons, IH. reflexivity.
Qed.

Lemma split_on_free (sep : ascii) (s : string) :
  free_of sep s = true -> split_on sep s = [s].
Proof.
  induction s as [|c s IH]; [reflexivity|].
  cbn [free_of split_on]. intros E. apply andb_true_iff in E as [Hc Hs].
  destruct (bool_decide (c = sep)); [discriminate|].
  rewrite (IH Hs). reflexivity.
Qed.

Lemma split_on_not_nil (sep : ascii) (s : string) : split_on sep s <> [].
Proof.
  destruct s as [|c s]; cbn [split_on]; [discriminate|].
  destruct (bool_decide (c = sep)); [discriminate|].
  destruct (split_on sep s); discriminate.
Qed.

Lemma split_on_app_sep (sep : ascii) (x b : string) :
  free_of sep b = true ->
  split_on sep (String.append x (String sep b))
  = (split_on sep x ++ [b])%list.
Proof.
  intros Hb. induction x as [|c x IH].
  - change (String.append "" (String sep b)) with (String sep b).
    cbn [split_on]. rewrite bool_decide_eq_true_2 by reflexivity.
    rewrite (split_on_free sep b Hb). reflexivity.
  - change (String.append (String c x) (String sep b))
      with (String c (String.append x (String sep b))).
    cbn [split_on]. rewrite IH.
    destruct (bool_decide (c = sep)); [reflexivity|].
    pose proof (split_on_not_nil sep x) as Hnil.
    destruct (split_on sep x); [done|reflexivity].
Qed.

Lemma append_assoc (a b c : string) :
  String.append (String.append a b) c = String.append a (String.append b c).
Proof.
  induction a as [|x a IH]; [reflexivity|].
  change (String.append (String.append (String x a) b) c)
    with (String x (String.append (String.append a b) c)).
  rewrite IH. reflexivity.
Qed.

Lemma ends_with_slash_inv (a : string) :
  ends_with_slash a = true -> exists x, a = String.append x "/".
Proof.
  unfold ends_with_slash. induction a as [|c a IH]; [discriminate|].
  cbn [list_ascii_of_string rev].
  destruct a as [|c' a'].
  - cbn. intros E. apply bool_decide_eq_true in E. subst c.
    exists "". reflexivity.
  - intros E.
    assert (exists d r, rev (list_ascii_of_string (String c' a')) = d :: r)
      as (d & r & Hr).
    { destruct (rev (list_ascii_of_string (String c' a'))) as [|d r] eqn:Hr;
        [|eauto].
      apply (f_equal (@length ascii)) in Hr.
      rewrite length_rev in Hr. cbn in Hr. discriminate Hr. }
    rewrite Hr in E, IH. cbn [app] in E.
    destruct (IH E) as [x Hx]. exists (String c x). rewrite Hx. reflexivity.
Qed.

(** The file name of [a / b] is [b] when [b] has no separator. *)
Lemma filename_path_join (a b : string) :
  free_of "/"%char b = true -> filename (path_join a b) = b.
Proof.
  intros Hb. unfold filename, path_join.
  assert (match b with String "/" _ => b | _ =>
            if bool_decide (a = "") || ends_with_slash a
            then String.append a b else String.append a (String "/" b)
          end
          = if bool_decide (a = "") || ends_with_slash a
            then String.append a b else String.append a (String "/" b))
    as ->.
  { destruct b as [|c b]; [reflexivity|].
    cbn [free_of] in Hb. apply andb_true_iff in Hb as [Hc _].
    apply negb_true_iff, bool_decide_eq_false in Hc.
    destruct c as [[] [] [] [] [] [] [] []]; try reflexivity.
    destruct Hc. reflexivity. }
  destruct (bool_decide (a = "")) eqn:Ha; cbn [orb].
  - apply bool_decide_eq_true in Ha. subst a.
    change (String.append "" b) with b.
    rewrite (split_on_free "/"%char b Hb). reflexivity.
  - destruct (ends_with_slash a) eqn:Hs.
    + destruct (ends_with_slash_inv a Hs) as [x ->].
      rewrite append_assoc.
      change (String.append "/" b) with (String "/" b).
      rewrite (split_on_app_sep "/"%char x b Hb), last_snoc. reflexivity.
    + rewrite (split_on_app_sep "/"%char a b Hb), last_snoc. reflexivity.
Qed.

Lemma free_of_app (c : ascii) (a b : string) :
  free_of c a = true -> free_of c b = true ->
  free_of c (String.append a b) = true.
Proof.
  intros Ha Hb. induction a as [|x a IH]; [exact Hb|].
  cbn [free_of] in Ha. apply andb_true_iff in Ha as [Hx Ha].
  change (String.append (String x a) b) with (String x (String.append a b)).
  cbn [free_of]. rewrite Hx, (IH Ha). reflexivity.
Qed.

Section SongFilePathFacts.
Context `{Host}.

(** X25: [generateSongFilePath] with a name that is not empty and has no
    separator, and an extension that is a period followed by one or more
    characters other than periods and separators. The path is
    [<saveDir>/nongs/<name><extension>] whatever else exists (two calls
    with the same name give the same path); the file name of this path
    is the name followed by the extension, its extension is the one
    asked for and its stem is the name; the [nongs] directory exists
    afterwards and no other directory is made or removed; and a random
    string is drawn although it is not used. *)
Theorem generateSongFilePath_named (saveDir e name : string)
    (dirs : gset string) (h : HostLog) :
  name <> "" -> free_of "/"%char name = true ->
  e <> "" -> free_of "."%char e = true -> free_of "/"%char e = true ->
  let '(p, dirs', h') :=
    generateSongFilePath saveDir (String "." e) (Some name) dirs h in
  p = path_join (path_join saveDir "nongs")
                (String.append name (String "." e))
  /\ filename p = String.append name (String "." e)
  /\ extension (filename p) = String "." e
  /\ stem (filename p) = name
  /\ dirs' = {[ path_join saveDir "nongs" ]} ∪ dirs
  /\ draws h' = S (draws h).
Proof.
  intros Hname Hns Hne He Hes. unfold generateSongFilePath.
  cbn [draw from_option id].
  split; [reflexivity|].
  assert (filename (path_join (path_join saveDir "nongs")
                      (String.append name (String "." e)))
          = String.append name (String "." e)) as Hfile.
  { apply filename_path_join, free_of_app; [exact Hns|].
    cbn [free_of]. rewrite Hes. reflexivity. }
  rewrite Hfile. split; [reflexivity|].
  assert (is_dot_or_dotdot (String.append name (String "." e)) = false)
    as Hdd.
  { unfold is_dot_or_dotdot.
    destruct name as [|c name]; [done|].
    apply orb_false_iff. split; apply bool_decide_eq_false.
    - cbn. destruct name; discriminate.
    - cbn. destruct name as [|c2 name]; [|destruct name; discriminate].
      cbn. intros E. apply Hne. inversion E. reflexivity. }
  split; [|split; [|split]].
  - unfold extension. rewrite Hdd, split_last_dot_suffix by exact He.
    destruct name; [done|reflexivity].
  - unfold stem. rewrite Hdd, split_last_dot_suffix by exact He.
    destruct name; [done|reflexivity].
  - case_bool_decide; [|reflexivity]. set_solver.
  - reflexivity.
Qed.

End SongFilePathFacts.

(** ** Numbers in file names *)

Lemma read_digits_app (s r : string) (c : ascii) :
  digit_of c = None ->
  forall acc, read_digits (String.append s (String c r)) acc
              = read_digits s acc.
Proof.
  intros Hc. induction s as [|d s IH]; intros acc.
  - change (String.append "" (String c r)) with (String c r).
    cbn [read_digits]. rewrite Hc. reflexivity.
  - change (String.append (String d s) (String c r))
      with (String d (String.append s (String c r))).
    cbn [read_digits]. destruct (digit_of d); [apply IH|reflexivity].
Qed.

Lemma skip_spaces_app (s t r : string) (a : ascii) :
  skip_spaces s = String a r ->
  skip_spaces (String.append s t) = String a (String.append r t).
Proof.
  induction s as [|x s IH]; [discriminate|].
  change (String.append (String x s) t) with (String x (String.append s t)).
  cbn [skip_spaces]. destruct (is_space x); [exact IH|].
  intros E. injection E as -> ->. reflexivity.
Qed.

Lemma read_digits_cons_app (x : ascii) (s r : string) (c : ascii) :
  digit_of c = None ->
  forall acc, read_digits (String x (String.append s (String c r))) acc
              = read_digits (String x s) acc.
Proof. intros Hc acc. exact (read_digits_app (String x s) r c Hc acc). Qed.

(** X26: [std::stoi] reads the number a text starts with and ignores what
    follows it: a stem accepted as the number [z] is still accepted as
    [z] when anything that does not start with a digit is appended. File
    names such as [7.json], [7a.json] and [7 copy.json] are therefore all
    read as the ID 7. *)
Theorem stoi_ignores_suffix (s r : string) (c : ascii) (z : Z) :
  stoi s = Normal z -> digit_of c = None ->
  stoi (String.append s (String c r)) = Normal z.
Proof.
  intros Hs Hc. unfold stoi in *.
  destruct (skip_spaces s) as [|a s1] eqn:Hskip; [discriminate Hs|].
  rewrite (skip_spaces_app s (String c r) s1 a Hskip).
  destruct a as [[] [] [] [] [] [] [] []];
    cbv beta iota zeta in *;
    first [ rewrite (read_digits_cons_app _ s1 r c Hc); exact Hs
          | rewrite (read_digits_app s1 r c Hc); exact Hs ].
Qed.

(** * The further properties on concrete inputs *)

Section MoreInstances.

Import Examples.

#[local] Existing Instances SpecModel.ops SpecModel.text_json
  SpecModel.quiet_host SpecModel.exact_floats.

Ltac by_computation := apply (bool_decide_unpack _); vm_compute; exact I.
Ltac each_element tac :=
  repeat (apply Forall_cons_2; [tac|]); apply Forall_nil_2.

Lemma no_null_manifest42 : no_null manifest42.
Proof.
  intros k Hk. unfold manifest42 in Hk.
  apply lookup_singleton_Some in Hk as [_ Hk]. discriminate Hk.
Defined.

Lemma initSongID_keeps_bindings_witness :
  fst (initSongID (Some (mkSongInfo "Seven" "G")) 7 false manifest42
                  (mkHostLog 0 [] []))
  !! 42 = Some (Some agg42).
Proof. apply initSongID_keeps_bindings. reflexivity. Defined.

Lemma initSongID_user_song_witness :
  initSongID (Some (mkSongInfo "Seven" "G")) 7 false manifest42
             (mkHostLog 0 [] [])
  = (<[7 := Some (create 7
                    (mkLocal (mkMetadata 7 "uid0" "Seven" "G" 0 None)
                             "/save/7.mp3"))]> manifest42,
     mkHostLog 1 [] [ptr_to 7]).
Proof.
  rewrite (initSongID_user_song (Some (mkSongInfo "Seven" "G"))
             (mkSongInfo "Seven" "G") 7 manifest42 (mkHostLog 0 [] []))
    by reflexivity.
  vm_compute. reflexivity.
Defined.

Lemma initSongID_placeholder_witness :
  initSongID None 7 false manifest42 (mkHostLog 0 [] [])
  = (<[7 := Some (create 7 (createUnknown 7 "uid0"))]> manifest42,
     mkHostLog 1 [7] []).
Proof.
  rewrite (initSongID_placeholder 7 manifest42 (mkHostLog 0 [] []))
    by reflexivity.
  vm_compute. reflexivity.
Defined.

Lemma initSongID_robtop_derived_key_witness :
  initSongID (Some (mkSongInfo "Stereo" "F")) (-1) true manifest42
             (mkHostLog 0 [] [])
  = (<[-1 := Some (create (-1)
                     (mkLocal (mkMetadata (-1) "uid0" "Stereo" "F" 0 None)
                              "/gd/Resources/-1.mp3"))]> manifest42,
     mkHostLog 1 [] [ptr_to (-1)]).
Proof.
  rewrite (initSongID_robtop_derived_key (mkSongInfo "Stereo" "F") (-1)
             manifest42 (mkHostLog 0 [] [])) by (try lia; reflexivity).
  vm_compute. reflexivity.
Defined.

Lemma initSongID_no_null_witness :
  no_null (fst (initSongID None 7 false manifest42 (mkHostLog 0 [] []))).
Proof.
  apply initSongID_no_null; [left; reflexivity|exact no_null_manifest42].
Defined.

Lemma getStoredIDCount_initSongID_witness :
  getStoredIDCount (fst (initSongID None 7 false manifest42
                                    (mkHostLog 0 [] [])))
  = if contains manifest42 7 then getStoredIDCount manifest42
    else getStoredIDCount manifest42 + 1.
Proof. apply getStoredIDCount_initSongID. vm_compute. reflexivity. Defined.

Lemma loadNongsFromPath_ok_inv_witness :
  exists id contents j,
    stoi (stem "8.json") = Normal id
    /\ id <> 0 /\ is_int id
    /\ quarantine_dir !! "8.json" = Some contents
    /\ json_parse contents = Ok j
    /\ from_json j id
       = Ok (create 8 (mkLocal (mkMetadata 8 "default" "eight" "" 0 None) "")).
Proof.
  apply (loadNongsFromPath_ok_inv quarantine_dir "8.json"). reflexivity.
Defined.

Lemma scanManifestDir_keeps_bindings_witness :
  (forall k p, manifest42 !! k = Some p ->
     insert_all (loaded dup_dir dup_listing) manifest42 !! k = Some p)
  /\ (no_null manifest42 ->
      no_null (insert_all (loaded dup_dir dup_listing) manifest42)).
Proof.
  apply (scanManifestDir_keeps_bindings dup_listing dup_dir dup_dir
           manifest42 (insert_all (loaded dup_dir dup_listing) manifest42)).
  vm_compute. reflexivity.
Defined.

Lemma init_idempotent_witness :
  match init quarantine_listing None (mkManager false ∅) quarantine_dir with
  | Normal (r, mgr', fs', _) =>
      r = true
      /\ m_initialized mgr' = true
      /\ init dup_listing None mgr' dup_dir = Normal (true, mgr', dup_dir, false)
  | _ => False
  end.
Proof.
  destruct (init quarantine_listing None (mkManager false ∅) quarantine_dir)
    as [[[[r mgr'] fs'] b]| |] eqn:E.
  - destruct (init_idempotent _ _ _ _ _ _ _ _ E) as (Hr & Hi & Hagain).
    split; [exact Hr|]. split; [exact Hi|]. apply Hagain.
  - vm_compute in E. discriminate E.
  - vm_compute in E. discriminate E.
Defined.

Lemma init_without_usable_legacy_witness :
  init dup_listing (Some (Err "bad legacy file")) (mkManager false ∅) dup_dir
  = Normal (true,
            mkManager true (insert_all (loaded dup_dir dup_listing) ∅),
            dup_dir, false).
Proof.
  apply init_without_usable_legacy.
  - reflexivity.
  - right. eexists. reflexivity.
  - vm_compute. reflexivity.
Defined.

Lemma migrateV2_binds_legacy_ids_witness :
  exists m' fs',
    migrateV2
      (Some (Ok [(42, mkCompat (defaultSong agg42) [] (defaultSong agg42));
                 (5, mkCompat (defaultSong agg1) [] (defaultSong agg1))]))
      manifest42 ∅
    = Normal (Ok (), m', fs', true)
    /\ no_null m'
    /\ dom m' = dom manifest42 ∪ list_to_set [42; 5].
Proof. apply migrateV2_binds_legacy_ids. exact no_null_manifest42. Defined.

Lemma saveNongs_null_pointers_witness :
  (exists r fs', saveNongs None manifest42 ∅ = Normal (r, fs'))
  /\ saveNongs None (<[0 := None]> manifest42) ∅ = NullDeref.
Proof.
  split.
  - apply (proj1 (saveNongs_null_pointers manifest42 ∅)).
    exact no_null_manifest42.
  - apply (proj2 (@saveNongs_null_pointers SpecModel.ops
                      (<[0 := None]> manifest42) ∅)) with (k := 0).
    + intros n fs0. reflexivity.
    + reflexivity.
Defined.

Lemma saveNongs_unknown_id_witness :
  saveNongs (Some 7) manifest42 ∅ = Normal (Ok (), ∅).
Proof. apply saveNongs_unknown_id. reflexivity. Defined.

Lemma songInfoListener_twice_witness :
  songInfoListener 42 "New" "Artist"
    (<[42 := Some (set_default_name_artist "New" "Artist" agg42)]> manifest42)
    (snd (Nongs_commit (set_default_name_artist "New" "Artist" agg42) ∅))
  = Normal (Stop,
            <[42 := Some (set_default_name_artist "New" "Artist" agg42)]>
              manifest42,
            snd (Nongs_commit (set_default_name_artist "New" "Artist" agg42)
                              ∅)).
Proof.
  apply (songInfoListener_twice 42 "New" "Artist" manifest42 _ ∅ _ Propagate).
  vm_compute. reflexivity.
Defined.

Lemma songInfoListener_frame_witness :
  let m' :=
    <[42 := Some (set_default_name_artist "New" "Artist" agg42)]> manifest42 in
  (forall k, k <> 42 -> m' !! k = manifest42 !! k)
  /\ dom m' = dom manifest42
  /\ forall nongs, manifest42 !! 42 = Some (Some nongs) ->
       exists nongs', m' !! 42 = Some (Some nongs')
         /\ songID nongs' = songID nongs
         /\ locals nongs' = locals nongs
         /\ youtubes nongs' = youtubes nongs
         /\ hosteds nongs' = hosteds nongs
         /\ activeID nongs' = activeID nongs
         /\ uniqueID (l_metadata (defaultSong nongs'))
            = uniqueID (l_metadata (defaultSong nongs))
         /\ l_path (defaultSong nongs') = l_path (defaultSong nongs).
Proof.
  apply (songInfoListener_frame 42 "New" "Artist" manifest42 _ ∅
           (snd (Nongs_commit (set_default_name_artist "New" "Artist" agg42)
                              ∅))
           Propagate).
  vm_compute. reflexivity.
Defined.

Lemma entry_points_keep_keys_witness :
  dom (<[42 := Some (SpecModel.with_active "L1" agg42)]> manifest42)
  = dom manifest42
  /\ forall k, k <> 42 ->
       <[42 := Some (SpecModel.with_active "L1" agg42)]> manifest42 !! k
       = manifest42 !! k.
Proof.
  destruct (entry_points_keep_keys 42 "L1" incoming42)
    as (_ & Hset & _ & _ & _).
  apply (Hset manifest42 _ ∅ {[ "42.json" := "42;L1;Old;Someone" ]} (Ok ())).
  vm_compute. reflexivity.
Defined.

Lemma initSongID_robtop_then_null_deref_witness :
  let m' := fst (initSongID (Some (mkSongInfo "Stereo" "F")) 0 true manifest42
                            (mkHostLog 0 [] [])) in
  getNongs m' 0 = Some None
  /\ setActiveSong 0 "L1" m' ∅ = NullDeref
  /\ deleteSong 0 "L1" m' ∅ = NullDeref
  /\ deleteSongAudio 0 "L1" m' ∅ = NullDeref
  /\ deleteAllSongs 0 m' ∅ = NullDeref
  /\ songInfoListener 0 "Stereo" "F" m' ∅ = NullDeref.
Proof.
  apply (initSongID_robtop_then_null_deref (mkSongInfo "Stereo" "F") 0
           manifest42 (mkHostLog 0 [] []) "L1" "Stereo" "F" ∅);
    [lia|reflexivity].
Defined.

Lemma getMultiAssetSizes_nothing_found_witness :
  getMultiAssetSizes manifest12 audio_files "9,10" "4,5"
  = Normal (megabytes_text float_zero)
  /\ getMultiAssetSizes manifest12 audio_files "" ""
     = Normal (megabytes_text float_zero).
Proof.
  apply getMultiAssetSizes_nothing_found.
  - each_element ltac:(eexists; split; reflexivity).
  - each_element ltac:(split; reflexivity).
Defined.

Lemma getMultiAssetSizes_bad_token_witness :
  getMultiAssetSizes manifest12 audio_files "1,,2" "" = Throws invalid_argument
  /\ stoi "" = Throws invalid_argument.
Proof.
  apply (@getMultiAssetSizes_bad_token SpecModel.quiet_host
           SpecModel.exact_floats manifest12 audio_files "1,,2" ""
           ["1"] ["2"] "" invalid_argument 3145728%N); reflexivity.
Defined.

Lemma generateSongFilePath_named_witness :
  let '(p, dirs', h') :=
    generateSongFilePath "/save" ".mp3" (Some "track") ∅ (mkHostLog 0 [] []) in
  p = path_join (path_join "/save" "nongs") "track.mp3"
  /\ filename p = "track.mp3"
  /\ extension (filename p) = ".mp3"
  /\ stem (filename p) = "track"
  /\ dirs' = {[ path_join "/save" "nongs" ]} ∪ ∅
  /\ draws h' = 1%nat.
Proof.
  apply (generateSongFilePath_named "/save" "mp3" "track" ∅
           (mkHostLog 0 [] []));
    first [discriminate | reflexivity].
Defined.

Example path_equal_run :
  path_equal "/old//d.mp3" "/old/d.mp3" = true
  /\ path_equal "old/d.mp3" "/old/d.mp3" = false
  /\ path_equal "/old/d.mp3/" "/old/d.mp3" = false
  /\ path_equal "/old/D.mp3" "/old/d.mp3" = false
  /\ filename "/save/nongs/track.mp3" = "track.mp3"
  /\ filename "/save/nongs/" = "".
Proof. vm_compute. repeat split; reflexivity. Qed.

Lemma stoi_ignores_suffix_witness : stoi "7 copy" = Normal 7.
Proof. apply (stoi_ignores_suffix "7" "copy" " " 7); reflexivity. Defined.

End MoreInstances.
